(** * prompting: template resolution and schema-driven response validation

    A shallow embedding of [src/lib/Prompt.ts] (class [PromptClass]) and of
    the part of [src/lib/Generator.ts] it talks to, with the properties of
    the specification stated over it.

    JavaScript strings are modelled as lists of 8-bit code units
    ([list ascii], the code units below 256); objects used as maps are
    association lists kept in own-property order; engine instances live in
    a heap and are passed around by reference, as in the source. *)

From Stdlib Require Import List String Ascii ZArith Lia Bool DecimalString.
From stdpp Require Import base option list strings.

Set Warnings "-register-all".
Import ListNotations.

Local Open Scope char_scope.
Local Open Scope list_scope.

(** ** Strings *)

Module JS.

Abbreviation jsstring := (list ascii).

(** A string literal of the source, as a list of code units. *)
Definition str (s : string) : jsstring := list_ascii_of_string s.

Definition text_eqb (a b : jsstring) : bool :=
  bool_decide (a = b).

(** [\s] of a regular expression, on code units below 256: TAB, LF, VT, FF,
    CR, SPACE and NBSP. *)
Definition is_space (c : ascii) : bool :=
  let n := nat_of_ascii c in
  (((9 <=? n) && (n <=? 13)) || (n =? 32) || (n =? 160))%nat.

(** [\w] of a regular expression: [A-Za-z0-9_]. *)
Definition is_word (c : ascii) : bool :=
  let n := nat_of_ascii c in
  (((48 <=? n) && (n <=? 57)) || ((65 <=? n) && (n <=? 90))
   || ((97 <=? n) && (n <=? 122)) || (n =? 95))%nat.

(** The longest prefix whose characters satisfy [p], and what follows it:
    a greedy [p*]. *)
Fixpoint span (p : ascii -> bool) (s : jsstring) : jsstring * jsstring :=
  match s with
  | c :: r =>
      if p c then let '(a, b) := span p r in (c :: a, b) else ([], s)
  | [] => ([], [])
  end.

(** [strip_prefix p s] is what follows [p] when [s] starts with [p]. *)
Fixpoint strip_prefix (p s : jsstring) : option jsstring :=
  match p, s with
  | [], _ => Some s
  | a :: p', b :: s' => if bool_decide (a = b) then strip_prefix p' s' else None
  | _ :: _, [] => None
  end.

(** [Array.prototype.join] on an array of strings. *)
Fixpoint join (sep : jsstring) (l : list jsstring) : jsstring :=
  match l with
  | [] => []
  | [x] => x
  | x :: r => x ++ sep ++ join sep r
  end.

(** *** Regular expressions of the source

    A matcher tries a pattern at the start of a text and returns the matched
    prefix with the rest.  Both patterns of the source are of the shape
    [{{ \s* body \s* }}]: a space, a word character and a brace exclude each
    other, so the greedy reading below is the only way either can match and
    backtracking never finds another one. *)

Definition matcher : Type := jsstring -> option (jsstring * jsstring).

Definition open_braces : jsstring := ["{"; "{"].
Definition close_braces : jsstring := ["}"; "}"].

(** [new RegExp(`{{\\s*${key}\\s*}}`)] at the start of [s].  The key is
    spliced into the pattern as it is; for a key made of word characters
    (an identifier) the pattern matches the key literally, and this is the
    case the embedding covers. *)
Definition match_key (key : jsstring) : matcher := fun s =>
  r0 ← strip_prefix open_braces s;
  let '(ws1, r1) := span is_space r0 in
  r2 ← strip_prefix key r1;
  let '(ws2, r3) := span is_space r2 in
  rest ← strip_prefix close_braces r3;
  Some (open_braces ++ ws1 ++ key ++ ws2 ++ close_braces, rest).

(** [/{{\s*[\w]+\s*}}/] at the start of [s]. *)
Definition match_placeholder : matcher := fun s =>
  r0 ← strip_prefix open_braces s;
  let '(ws1, r1) := span is_space r0 in
  let '(name, r2) := span is_word r1 in
  match name with
  | [] => None
  | _ :: _ =>
      let '(ws2, r3) := span is_space r2 in
      rest ← strip_prefix close_braces r3;
      Some (open_braces ++ ws1 ++ name ++ ws2 ++ close_braces, rest)
  end.

(** A matcher is braced when what it matches is a prefix of the text that
    starts with two opening braces and has no other opening brace. *)
Definition braced (m : matcher) : Prop :=
  forall s matched rest, m s = Some (matched, rest) ->
    s = matched ++ rest
    /\ exists b body, matched = "{" :: "{" :: b :: body
                      /\ Forall (fun c => c <> "{") (b :: body).

(** [GetSubstitution] for a pattern without capture groups: [$$] is a
    dollar, [$&] the match, [$`] the text before it, [$'] the text after it;
    any other dollar stands for itself. *)
Fixpoint GetSubstitution (matched before after template : jsstring) : jsstring :=
  match template with
  | [] => []
  | c :: r =>
      if bool_decide (c = "$") then
        match r with
        | d :: r' =>
            if bool_decide (d = "$") then
              "$" :: GetSubstitution matched before after r'
            else if bool_decide (d = "&") then
              matched ++ GetSubstitution matched before after r'
            else if bool_decide (d = "`") then
              before ++ GetSubstitution matched before after r'
            else if bool_decide (d = "'") then
              after ++ GetSubstitution matched before after r'
            else "$" :: GetSubstitution matched before after r
        | [] => ["$"]
        end
      else c :: GetSubstitution matched before after r
  end.

(** [String.prototype.replace] with a global pattern and a replacement
    string.  The text is scanned from the left; [before] holds what was
    scanned, most recent first, and [skip] counts the characters of the
    current match that are still to be passed over. *)
Fixpoint replace_from (m : matcher) (replacement : jsstring)
    (before : jsstring) (skip : nat) (s : jsstring) : jsstring :=
  match s with
  | [] => []
  | c :: r =>
      match skip with
      | S n => replace_from m replacement (c :: before) n r
      | O =>
          match m s with
          | Some (matched, rest) =>
              GetSubstitution matched (rev before) rest replacement
              ++ replace_from m replacement (c :: before) (length matched - 1) r
          | None => c :: replace_from m replacement (c :: before) 0 r
          end
      end
  end.

Definition replace (m : matcher) (replacement : jsstring) (s : jsstring) : jsstring :=
  replace_from m replacement [] 0 s.

(** [String.prototype.match] with a global pattern: every match, from the
    left, none overlapping; the source's [null] is the empty list. *)
Fixpoint match_from (m : matcher) (skip : nat) (s : jsstring) : list jsstring :=
  match s with
  | [] => []
  | _ :: r =>
      match skip with
      | S n => match_from m n r
      | O =>
          match m s with
          | Some (matched, _) => matched :: match_from m (length matched - 1) r
          | None => match_from m 0 r
          end
      end
  end.

Definition match_all (m : matcher) (s : jsstring) : list jsstring :=
  match_from m 0 s.

(** *** Exceptions and completions

    What a [throw] carries: an error object of one of the classes the
    program meets, with its message.  A call completes by returning a value
    or by throwing. *)

Inductive exn : Type :=
  | Error (message : jsstring)
  | TypeError (message : jsstring)
  | SyntaxError (message : jsstring).

Inductive completion (A : Type) : Type :=
  | Return (a : A)
  | Throw (e : exn).
Arguments Return {A} a.
Arguments Throw {A} e.

End JS.

(** ** Objects used as maps

    The entries of an object in own-property order: keys that are array
    indices first, in ascending numeric order, then the other keys in the
    order they were created.  This is the order of [Object.entries], of
    [for ... in] and of [JSON.stringify]. *)

Module Obj.
Import JS.

Definition object (V : Type) : Type := list (jsstring * V).

Definition digit_value (c : ascii) : option N :=
  let n := N_of_ascii c in
  if ((48 <=? n) && (n <=? 57))%N then Some (n - 48)%N else None.

Fixpoint parse_digits (acc : N) (s : jsstring) : option N :=
  match s with
  | [] => Some acc
  | c :: r =>
      match digit_value c with
      | Some d => parse_digits (10 * acc + d)%N r
      | None => None
      end
  end.

(** A key is an array index when it is the decimal numeral, without leading
    zeros, of a number below [2^32 - 1]. *)
Definition array_index (k : jsstring) : option N :=
  match k with
  | [] => None
  | "0" :: _ :: _ => None
  | _ =>
      match parse_digits 0 k with
      | Some n => if (n <? 4294967295)%N then Some n else None
      | None => None
      end
  end.

Section Objects.
Context {V : Type}.

Definition has (k : jsstring) (o : object V) : bool :=
  existsb (fun kv => text_eqb kv.1 k) o.

Fixpoint get (k : jsstring) (o : object V) : option V :=
  match o with
  | [] => None
  | (k', v) :: r => if text_eqb k' k then Some v else get k r
  end.

(** Overwrite the value of a key that is there; the key keeps its place. *)
Fixpoint update (k : jsstring) (v : V) (o : object V) : object V :=
  match o with
  | [] => []
  | (k', v') :: r =>
      if text_eqb k' k then (k, v) :: r else (k', v') :: update k v r
  end.

(** A new array-index key goes after the smaller indices. *)
Fixpoint insert_index (n : N) (k : jsstring) (v : V) (o : object V) : object V :=
  match o with
  | [] => [(k, v)]
  | (k', v') :: r =>
      match array_index k' with
      | Some n' =>
          if (n' <? n)%N then (k', v') :: insert_index n k v r
          else (k, v) :: o
      | None => (k, v) :: o
      end
  end.

(** Define the own property [k] with value [v]. *)
Definition set (k : jsstring) (v : V) (o : object V) : object V :=
  if has k o then update k v o
  else
    match array_index k with
    | Some n => insert_index n k v o
    | None => o ++ [(k, v)]
    end.

(** Copy the own properties of [source] into [target]: one spread
    element of an object literal. *)
Definition spread (target source : object V) : object V :=
  fold_left (fun o kv => set kv.1 kv.2 o) source target.

(** [o[k] = v] on an object literal: the key [__proto__] reaches the
    setter of [Object.prototype] and creates no own property. *)
Definition assign (k : jsstring) (v : V) (o : object V) : object V :=
  if text_eqb k (str "__proto__") then o else set k v o.

Definition keys (o : object V) : list jsstring := map fst o.

End Objects.
End Obj.

(** ** Values bound to template variables

    A binding holds a string or a number; the numbers covered are the
    integers that print as plain decimal numerals. *)

Module Value.
Import JS.

Inductive value : Type :=
  | VString (s : jsstring)
  | VNumber (n : Z).

Definition number_to_text (n : Z) : jsstring :=
  str (NilZero.string_of_int (Z.to_int n)).

(** [ToString], as applied by [replace] to a replacement that is not a
    function. *)
Definition ToString (v : value) : jsstring :=
  match v with
  | VString s => s
  | VNumber n => number_to_text n
  end.

End Value.

(** ** JSON values and [JSON.stringify] *)

Module JSON.
Import JS.

(** Numbers are the integers (fractions are not represented). *)
Inductive json : Type :=
  | JNull
  | JBool (b : bool)
  | JNumber (n : Z)
  | JString (s : jsstring)
  | JArray (elements : list json)
  | JObject (members : list (jsstring * json)).

Definition dquote : ascii := ascii_of_nat 34.
Definition backslash : ascii := ascii_of_nat 92.
Definition newline : ascii := ascii_of_nat 10.

Definition hex_digit (n : nat) : ascii :=
  nth n (str "0123456789abcdef") "0".

(** One code unit of [QuoteJSONString]. *)
Definition quote_char (c : ascii) : jsstring :=
  let n := nat_of_ascii c in
  if bool_decide (c = dquote) then [backslash; dquote]
  else if bool_decide (c = backslash) then [backslash; backslash]
  else if (n =? 8)%nat then [backslash; "b"]
  else if (n =? 9)%nat then [backslash; "t"]
  else if (n =? 10)%nat then [backslash; "n"]
  else if (n =? 12)%nat then [backslash; "f"]
  else if (n =? 13)%nat then [backslash; "r"]
  else if (n <? 32)%nat then
    [backslash; "u"; "0"; "0"; hex_digit (n / 16); hex_digit (n mod 16)]
  else [c].

Definition quote (s : jsstring) : jsstring :=
  dquote :: flat_map quote_char s ++ [dquote].

(** [SerializeJSONProperty] with the indentation unit [gap]; [indent] is the
    indentation of the enclosing value. *)
Fixpoint serialize (gap indent : jsstring) (v : json) : jsstring :=
  match v with
  | JNull => str "null"
  | JBool true => str "true"
  | JBool false => str "false"
  | JNumber n => Value.number_to_text n
  | JString s => quote s
  | JArray elements =>
      let stepback := indent in
      let indent := indent ++ gap in
      match elements with
      | [] => str "[]"
      | _ :: _ =>
          let partial := map (serialize gap indent) elements in
          match gap with
          | [] => "[" :: join [","] partial ++ ["]"]
          | _ :: _ =>
              "[" :: newline :: indent
              ++ join ("," :: newline :: indent) partial
              ++ newline :: stepback ++ ["]"]
          end
      end
  | JObject members =>
      let stepback := indent in
      let indent := indent ++ gap in
      match members with
      | [] => str "{}"
      | _ :: _ =>
          let colon := match gap with [] => [":"] | _ :: _ => [":"; " "] end in
          let partial :=
            map (fun kv => quote kv.1 ++ colon ++ serialize gap indent kv.2)
                members in
          match gap with
          | [] => "{" :: join [","] partial ++ ["}"]
          | _ :: _ =>
              "{" :: newline :: indent
              ++ join ("," :: newline :: indent) partial
              ++ newline :: stepback ++ ["}"]
          end
      end
  end.

(** [JSON.stringify(v, null, 2)]. *)
Definition stringify2 (v : json) : jsstring :=
  serialize [" "; " "] [] v.

(** *** [JSON.parse]

    A decoder takes a text to a value or throws a [SyntaxError].  The
    program is stated over any decoder; [parse] is the builtin on the JSON
    texts whose numbers are integer numerals and whose [\u] escapes are
    below 256, and is used where a concrete decoder is run. *)

Definition Decoder : Type := jsstring -> completion json.

Definition is_json_space (c : ascii) : bool :=
  let n := nat_of_ascii c in
  ((n =? 32) || (n =? 9) || (n =? 10) || (n =? 13))%nat.

Fixpoint skip_ws (s : jsstring) : jsstring :=
  match s with
  | c :: r => if is_json_space c then skip_ws r else s
  | [] => []
  end.

Definition unescape (c : ascii) : option ascii :=
  if bool_decide (c = dquote) then Some dquote
  else if bool_decide (c = backslash) then Some backslash
  else
    match c with
    | "/" => Some "/"
    | "b" => Some (ascii_of_nat 8)
    | "f" => Some (ascii_of_nat 12)
    | "n" => Some (ascii_of_nat 10)
    | "r" => Some (ascii_of_nat 13)
    | "t" => Some (ascii_of_nat 9)
    | _ => None
    end.

Definition hex_value (c : ascii) : option nat :=
  let n := nat_of_ascii c in
  if ((48 <=? n) && (n <=? 57))%nat then Some (n - 48)%nat
  else if ((65 <=? n) && (n <=? 70))%nat then Some (n - 55)%nat
  else if ((97 <=? n) && (n <=? 102))%nat then Some (n - 87)%nat
  else None.

(** The characters of a string literal after its opening quote, and what
    follows the closing quote. *)
Fixpoint parse_string (s : jsstring) : option (jsstring * jsstring) :=
  match s with
  | [] => None
  | c :: r =>
      if bool_decide (c = dquote) then Some ([], r)
      else if bool_decide (c = backslash) then
        match r with
        | "u" :: h1 :: h2 :: h3 :: h4 :: r' =>
            match hex_value h1, hex_value h2, hex_value h3, hex_value h4 with
            | Some 0%nat, Some 0%nat, Some a, Some b =>
                match parse_string r' with
                | Some (body, rest) =>
                    Some (ascii_of_nat (16 * a + b) :: body, rest)
                | None => None
                end
            | _, _, _, _ => None
            end
        | e :: r' =>
            match unescape e, parse_string r' with
            | Some ch, Some (body, rest) => Some (ch :: body, rest)
            | _, _ => None
            end
        | [] => None
        end
      else if (nat_of_ascii c <? 32)%nat then None
      else
        match parse_string r with
        | Some (body, rest) => Some (c :: body, rest)
        | None => None
        end
  end.

(** An integer numeral: an optional minus sign and digits without a
    leading zero; a fraction or an exponent is not read. *)
Definition parse_number (s : jsstring) : option (json * jsstring) :=
  let '(negative, s) :=
    match s with "-" :: r => (true, r) | _ => (false, s) end in
  let '(digits, rest) :=
    span (fun c => match Obj.digit_value c with Some _ => true | None => false end) s in
  let well_formed :=
    match digits with
    | [] => false
    | "0" :: _ :: _ => false
    | _ => true
    end in
  let ends :=
    match rest with
    | "." :: _ | "e" :: _ | "E" :: _ => false
    | _ => true
    end in
  match Obj.parse_digits 0 digits with
  | Some n =>
      if well_formed && ends then
        Some (JNumber (if negative : bool then - Z.of_N n else Z.of_N n), rest)
      else None
  | None => None
  end.

Fixpoint parse_value (fuel : nat) (s : jsstring) : option (json * jsstring) :=
  match fuel with
  | O => None
  | S fuel =>
      match skip_ws s with
      | "n" :: "u" :: "l" :: "l" :: r => Some (JNull, r)
      | "t" :: "r" :: "u" :: "e" :: r => Some (JBool true, r)
      | "f" :: "a" :: "l" :: "s" :: "e" :: r => Some (JBool false, r)
      | "[" :: r =>
          match skip_ws r with
          | "]" :: r' => Some (JArray [], r')
          | _ =>
              (fix elements (n : nat) (s : jsstring) (acc : list json) :=
                 match n with
                 | O => None
                 | S n =>
                     match parse_value fuel s with
                     | Some (v, r1) =>
                         match skip_ws r1 with
                         | "," :: r2 => elements n r2 (v :: acc)
                         | "]" :: r2 => Some (JArray (rev (v :: acc)), r2)
                         | _ => None
                         end
                     | None => None
                     end
                 end) (length r) r []
          end
      | "{" :: r =>
          match skip_ws r with
          | "}" :: r' => Some (JObject [], r')
          | _ =>
              (fix members (n : nat) (s : jsstring) (acc : Obj.object json) :=
                 match n with
                 | O => None
                 | S n =>
                     match skip_ws s with
                     | q :: r0 =>
                         if bool_decide (q = dquote) then
                           match parse_string r0 with
                           | Some (key, r1) =>
                               match skip_ws r1 with
                               | ":" :: r2 =>
                                   match parse_value fuel r2 with
                                   | Some (v, r3) =>
                                       let acc := Obj.set key v acc in
                                       match skip_ws r3 with
                                       | "," :: r4 => members n r4 acc
                                       | "}" :: r4 => Some (JObject acc, r4)
                                       | _ => None
                                       end
                                   | None => None
                                   end
                               | _ => None
                               end
                           | None => None
                           end
                         else None
                     | [] => None
                     end
                 end) (length r) r []
          end
      | c :: r =>
          if bool_decide (c = dquote) then
            match parse_string r with
            | Some (body, rest) => Some (JString body, rest)
            | None => None
            end
          else parse_number (c :: r)
      | [] => None
      end
  end.

Definition parse : Decoder := fun s =>
  match parse_value (S (length s)) s with
  | Some (v, rest) =>
      match skip_ws rest with
      | [] => Return v
      | _ :: _ => Throw (SyntaxError (str "Unexpected token in JSON"))
      end
  | None => Throw (SyntaxError (str "Unexpected token in JSON"))
  end.

End JSON.

(** ** Schemas

    The fields of a JSON schema that the source reads: [type],
    [properties], [items], and [required], which the validator reads.
    An absent [properties] is the empty list. *)

Module Schema.
Import JS JSON.

Inductive JSONSchema : Type :=
  mkSchema (type : jsstring) (properties : list (jsstring * JSONSchema))
           (items : option JSONSchema) (required : list jsstring).

Definition type (s : JSONSchema) : jsstring :=
  match s with mkSchema t _ _ _ => t end.
Definition properties (s : JSONSchema) : list (jsstring * JSONSchema) :=
  match s with mkSchema _ p _ _ => p end.
Definition items (s : JSONSchema) : option JSONSchema :=
  match s with mkSchema _ _ i _ => i end.
Definition required (s : JSONSchema) : list jsstring :=
  match s with mkSchema _ _ _ r => r end.

(** [describeSchema(schema)] for a schema that is there: [resolvePrompt]
    calls it only when a schema is set, and the recursive calls are on the
    schemas of properties and items.  The result is [None] where the source
    raises a [TypeError]: an array schema without [items]. *)
Fixpoint describeSchema (schema : JSONSchema) : option json :=
  match schema with
  | mkSchema type properties items _ =>
      if text_eqb type (str "object") then
        let fix props (ps : list (jsstring * JSONSchema)) (acc : Obj.object json)
            : option (Obj.object json) :=
          match ps with
          | [] => Some acc
          | (key, sub) :: r =>
              match describeSchema sub with
              | Some d => props r (Obj.assign key d acc)
              | None => None
              end
          end in
        match props properties [] with
        | Some o => Some (JObject o)
        | None => None
        end
      else if text_eqb type (str "array") then
        match items with
        | Some itemSchema =>
            match itemSchema with
            | mkSchema itemType _ _ _ =>
                if text_eqb itemType (str "object") then
                  match describeSchema itemSchema with
                  | Some d => Some (JArray [d])
                  | None => None
                  end
                else Some (JArray [JString itemType])
            end
        | None => None
        end
      else Some (JString type)
  end.

End Schema.

(** ** The validator library

    The types the source imports from the validator library, and a model of
    [new Ajv().compile] for the schema fields above. *)

Module Ajv.
Import JS JSON Schema.

Record ErrorObject : Type := {
  keyword : jsstring;
  message : option jsstring
}.

(** The outcome of calling a validate function: its boolean result and the
    [errors] it leaves on itself ([None] for [null]). *)
Record Validation : Type := {
  valid : bool;
  errors : option (list ErrorObject)
}.

Definition ValidateFunction : Type := json -> Validation.

(** [compile] returns a validate function or throws. *)
Definition Compiler : Type := JSONSchema -> completion ValidateFunction.

(** *** A model of the library with its default options

    A schema is checked against the meta-schema when it is compiled: the
    type is one of the seven JSON types and [required] has no repeated
    name.  With the default options ([allErrors] unset) a validate function
    stops at the first error.  The messages are worded as version 8 of the
    library words them; the message of a refused schema is cut short. *)

Definition JSONTypes : list jsstring :=
  map str ["string"; "number"; "integer"; "boolean"; "null"; "object";
           "array"]%string.

Fixpoint validateSchema (s : JSONSchema) : bool :=
  match s with
  | mkSchema t ps it req =>
      bool_decide (t ∈ JSONTypes) && bool_decide (NoDup req)
      && forallb (fun kv => validateSchema kv.2) ps
      && match it with Some i => validateSchema i | None => true end
  end.

Definition has_type (t : jsstring) (d : json) : bool :=
  match d with
  | JNull => text_eqb t (str "null")
  | JBool _ => text_eqb t (str "boolean")
  | JNumber _ => text_eqb t (str "number") || text_eqb t (str "integer")
  | JString _ => text_eqb t (str "string")
  | JArray _ => text_eqb t (str "array")
  | JObject _ => text_eqb t (str "object")
  end.

Definition type_error (t : jsstring) : ErrorObject :=
  {| keyword := str "type"; message := Some (str "must be " ++ t) |}.

Definition required_error (name : jsstring) : ErrorObject :=
  {| keyword := str "required";
     message := Some (str "must have required property '" ++ name ++ ["'"]) |}.

(** Every violation of [s] by [d], in the order the keywords are checked:
    the type, then the required properties, then the properties (or the
    items). *)
Fixpoint violations (s : JSONSchema) (d : json) : list ErrorObject :=
  match s with
  | mkSchema t ps it req =>
      if negb (has_type t d) then [type_error t]
      else
        match d with
        | JObject members =>
            flat_map
              (fun name =>
                 if Obj.has name members then [] else [required_error name])
              req
            ++ (fix props (ps : list (jsstring * JSONSchema)) :=
                  match ps with
                  | [] => []
                  | (key, sub) :: r =>
                      match Obj.get key members with
                      | Some v => violations sub v
                      | None => []
                      end ++ props r
                  end) ps
        | JArray elements =>
            match it with
            | Some i => flat_map (violations i) elements
            | None => []
            end
        | _ => []
        end
  end.

Definition validator (s : JSONSchema) : ValidateFunction := fun d =>
  match violations s d with
  | [] => {| valid := true; errors := None |}
  | first :: _ => {| valid := false; errors := Some [first] |}
  end.

Definition compile : Compiler := fun s =>
  if validateSchema s then Return (validator s)
  else Throw (Error (str "schema is invalid")).

End Ajv.

(** ** Templates, as the specification speaks of them

    A placeholder is [{{], blanks, an identifier, blanks, [}}].  A template
    whose braces all belong to placeholders is a list of segments: literal
    text without braces, and holes. *)

Module Template.
Import JS Value.

Definition placeholder (ws1 name ws2 : jsstring) : jsstring :=
  open_braces ++ ws1 ++ name ++ ws2 ++ close_braces.

Definition is_identifier (k : jsstring) : bool := forallb is_word k.

Definition is_blank (ws : jsstring) : bool := forallb is_space ws.

Definition is_brace (c : ascii) : bool :=
  bool_decide (c = "{") || bool_decide (c = "}").

Definition brace_free (s : jsstring) : bool :=
  forallb (fun c => negb (is_brace c)) s.

(** A value is plain when its text has no brace and no dollar sign. *)
Definition is_plain (s : jsstring) : bool :=
  forallb (fun c => negb (is_brace c) && negb (bool_decide (c = "$"))) s.

Inductive segment : Type :=
  | Lit (s : jsstring)
  | Hole (ws1 name ws2 : jsstring).

Definition wf_segment (sg : segment) : bool :=
  match sg with
  | Lit s => brace_free s
  | Hole ws1 name ws2 =>
      is_blank ws1 && is_identifier name
      && negb (bool_decide (name = [])) && is_blank ws2
  end.

Definition render_segment (sg : segment) : jsstring :=
  match sg with
  | Lit s => s
  | Hole ws1 name ws2 => placeholder ws1 name ws2
  end.

Definition render (segs : list segment) : jsstring :=
  flat_map render_segment segs.

Definition hole_names (segs : list segment) : list jsstring :=
  flat_map
    (fun sg => match sg with Lit _ => [] | Hole _ name _ => [name] end) segs.

(** The template with every hole that has a binding replaced by the text
    of its value. *)
Definition instantiate (bindings : Obj.object value) (segs : list segment)
    : jsstring :=
  flat_map
    (fun sg =>
       match sg with
       | Lit s => s
       | Hole ws1 name ws2 =>
           match Obj.get name bindings with
           | Some v => ToString v
           | None => placeholder ws1 name ws2
           end
       end) segs.

(** Every hole of the template has a binding. *)
Definition covers (bindings : Obj.object value) (segs : list segment) : bool :=
  forallb (fun name => Obj.has name bindings) (hole_names segs).

(** The values of the bindings are plain. *)
Definition plain_values (bindings : Obj.object value) : bool :=
  forallb (fun kv => is_plain (ToString kv.2)) bindings.

(** The names of the bindings are identifiers. *)
Definition identifier_keys (bindings : Obj.object value) : bool :=
  forallb is_identifier (Obj.keys bindings).

(** The name occurs in a hole of the template. *)
Definition uses (segs : list segment) (k : jsstring) : bool :=
  existsb (fun name => text_eqb name k) (hole_names segs).

(** The bindings whose names occur in the template have plain values. *)
Definition plain_where_used (segs : list segment)
    (bindings : Obj.object value) : bool :=
  forallb (fun kv => negb (uses segs kv.1) || is_plain (ToString kv.2))
    bindings.

#[global] Instance value_eq_dec : EqDecision value.
Proof. solve_decision. Defined.

(** Two sets of bindings give the names that occur in the template the
    same values. *)
Definition agree_on (segs : list segment) (b1 b2 : Obj.object value) : bool :=
  forallb (fun name => bool_decide (Obj.get name b1 = Obj.get name b2))
    (hole_names segs).

(** One binding applied to the segments. *)
Definition fill (k v : jsstring) (sg : segment) : segment :=
  match sg with
  | Lit s => Lit s
  | Hole ws1 name ws2 => if text_eqb name k then Lit v else sg
  end.

End Template.

(** ** The placeholders of a text

    What the message of the missing-variables error lists, said without the
    scan of the source: the text is read from the left; where a placeholder
    starts it is an entry, and reading goes on behind it; elsewhere reading
    goes on with the next character. *)

Module Tokens.
Import JS Template.

(** Two opening braces, white space, a name of word characters that is not
    empty, white space, two closing braces. *)
Definition is_token (tok : jsstring) : Prop :=
  exists ws1 name ws2,
    tok = placeholder ws1 name ws2 /\ is_blank ws1 = true
    /\ is_identifier name = true /\ name <> [] /\ is_blank ws2 = true.

Definition starts_with_token (s : jsstring) : Prop :=
  exists tok rest, is_token tok /\ s = tok ++ rest.

Inductive occurrences : jsstring -> list jsstring -> Prop :=
  | occ_done : occurrences [] []
  | occ_char (c : ascii) (s : jsstring) (toks : list jsstring) :
      ~ starts_with_token (c :: s) ->
      occurrences s toks ->
      occurrences (c :: s) toks
  | occ_token (s tok rest : jsstring) (toks : list jsstring) :
      s = tok ++ rest ->
      is_token tok ->
      occurrences rest toks ->
      occurrences s (tok :: toks).

End Tokens.

(** ** Generation backends ([Generator.ts]) *)

Module GeneratorOptions.
Import JS.

Record t : Type := {
  model : option jsstring;
  baseUrl : option jsstring;
  apiKey : jsstring;
  execute : option (jsstring -> completion jsstring)
}.

End GeneratorOptions.

Module Generator.
Import JS.

(** A backend: [execute] settles with the generated text or with the error
    the backend rejects with. *)
Record t : Type := {
  model : option jsstring;
  baseUrl : option jsstring;
  apiKey : jsstring;
  execute : jsstring -> completion jsstring
}.

(** The [execute] of the class itself. *)
Definition not_implemented : jsstring -> completion jsstring :=
  fun _ => Throw (Error (str "Not implemented.")).

Definition new (options : GeneratorOptions.t) : t :=
  {| model := GeneratorOptions.model options;
     apiKey := GeneratorOptions.apiKey options;
     baseUrl := GeneratorOptions.baseUrl options;
     execute := default not_implemented (GeneratorOptions.execute options) |}.

End Generator.

(** ** The prompt engine ([Prompt.ts]) *)

Module PromptOptions.
Import JS Schema Value.

Record t : Type := {
  generator : option Generator.t;
  text : option jsstring;
  schema : option JSONSchema;
  defaults : option (Obj.object value);
  format : option jsstring
}.

(** The object literal without properties. *)
Definition empty : t :=
  {| generator := None; text := None; schema := None; defaults := None;
     format := None |}.

End PromptOptions.

Module PromptClass.
Import JS JSON Schema Value.

Record t : Type := {
  _text : option jsstring;
  _defaults : Obj.object value;
  _schema : option JSONSchema;
  _vars : option (Obj.object value);
  _generator : option Generator.t;
  _validator : option Ajv.ValidateFunction;
  _format : jsstring
}.

(** Assignments to one field. *)
Definition set_text (x : option jsstring) (e : t) : t :=
  {| _text := x; _defaults := _defaults e; _schema := _schema e;
     _vars := _vars e; _generator := _generator e;
     _validator := _validator e; _format := _format e |}.
Definition set_defaults (x : Obj.object value) (e : t) : t :=
  {| _text := _text e; _defaults := x; _schema := _schema e;
     _vars := _vars e; _generator := _generator e;
     _validator := _validator e; _format := _format e |}.
Definition set_schema (x : option JSONSchema) (e : t) : t :=
  {| _text := _text e; _defaults := _defaults e; _schema := x;
     _vars := _vars e; _generator := _generator e;
     _validator := _validator e; _format := _format e |}.
Definition set_vars (x : option (Obj.object value)) (e : t) : t :=
  {| _text := _text e; _defaults := _defaults e; _schema := _schema e;
     _vars := x; _generator := _generator e;
     _validator := _validator e; _format := _format e |}.
Definition set_generator (x : option Generator.t) (e : t) : t :=
  {| _text := _text e; _defaults := _defaults e; _schema := _schema e;
     _vars := _vars e; _generator := x;
     _validator := _validator e; _format := _format e |}.
Definition set_validator (x : option Ajv.ValidateFunction) (e : t) : t :=
  {| _text := _text e; _defaults := _defaults e; _schema := _schema e;
     _vars := _vars e; _generator := _generator e;
     _validator := x; _format := _format e |}.

(** *** The store

    Engines are objects: a reference is an index into the heap, and every
    holder of a reference sees the same object.  The world also records the
    prompts handed to a backend, oldest first. *)

Abbreviation ref := nat.

Record world : Type := {
  heap : list t;
  calls : list jsstring
}.

Definition M (A : Type) : Type := world -> completion A * world.

#[global] Instance M_ret : MRet M := fun A a w => (Return a, w).
#[global] Instance M_bind : MBind M := fun A B f m w =>
  match m w with
  | (Return a, w') => f a w'
  | (Throw e, w') => (Throw e, w')
  end.

Definition throw {A} (e : exn) : M A := fun w => (Throw e, w).

Definition lift {A} (c : completion A) : M A := fun w => (c, w).

(** Reading a field through a reference that holds no object is the
    [TypeError] of reading a property of [undefined]. *)
Definition read (this : ref) : M t := fun w =>
  match heap w !! this with
  | Some e => (Return e, w)
  | None => (Throw (TypeError (str "Cannot read properties of undefined")), w)
  end.

Definition write (this : ref) (f : t -> t) : M unit := fun w =>
  (Return tt, {| heap := alter f this (heap w); calls := calls w |}).

Definition alloc (e : t) : M ref := fun w =>
  (Return (length (heap w)),
   {| heap := heap w ++ [e]; calls := calls w |}).

(** [await generator.execute(prompt)]. *)
Definition await_execute (g : Generator.t) (prompt : jsstring) : M jsstring :=
  fun w =>
    (Generator.execute g prompt,
     {| heap := heap w; calls := calls w ++ [prompt] |}).

(** What [generate] resolves to: the decoded data, or the raw text when no
    schema is set. *)
Inductive generated : Type :=
  | Data (data : json)
  | RawText (s : jsstring).

(** *** Resolution *)

(** [{...this._defaults, ...(vars || this._vars)}]. *)
Definition allVars (e : t) (vars : option (Obj.object value))
    : Obj.object value :=
  let overrides :=
    match vars with
    | Some v => v
    | None => default [] (_vars e)
    end in
  Obj.spread (Obj.spread [] (_defaults e)) overrides.

(** The loop over [Object.entries(allVars)]. *)
Definition substitute (bindings : Obj.object value) (prompt : jsstring)
    : jsstring :=
  fold_left
    (fun prompt kv => replace (match_key kv.1) (ToString kv.2) prompt)
    bindings prompt.

Definition missing_message (unboundVars : list jsstring) : jsstring :=
  str "Missing template variables or default values: "
  ++ join (str ", ") unboundVars.

Definition directive (format : jsstring) (description : json) : jsstring :=
  str " Please provide a " ++ format
  ++ str " response with the following structure:" ++ [newline]
  ++ stringify2 description.

Definition resolvePrompt (e : t) (vars : option (Obj.object value))
    : completion jsstring :=
  let prompt := default [] (_text e) in
  let prompt := substitute (allVars e vars) prompt in
  match match_all match_placeholder prompt with
  | (_ :: _) as unboundVars => Throw (Error (missing_message unboundVars))
  | [] =>
      match _schema e with
      | Some s =>
          match describeSchema s with
          | Some description =>
              Return (prompt ++ directive (_format e) description)
          | None =>
              Throw (TypeError (str "Cannot read properties of undefined"))
          end
      | None => Return prompt
      end
  end.

Definition invalid_message (errors : option (list Ajv.ErrorObject))
    : jsstring :=
  str "Invalid data: "
  ++ match errors with
     | Some errs =>
         join (str ", ") (map (fun err => default [] (Ajv.message err)) errs)
     | None => str "undefined"
     end.

Definition validate (e : t) (data : json) : completion bool :=
  match _validator e with
  | None => Throw (Error (str "No validator set up."))
  | Some validator =>
      let result := validator data in
      if Ajv.valid result then Return true
      else Throw (Error (invalid_message (Ajv.errors result)))
  end.

Definition no_generator_message : jsstring :=
  str "No generator was provided yet. Use prompt.using(generator) to set a generator or use Generator.prompt() to create new prompts.".

Inductive call : Type :=
  | CallNew (options : PromptOptions.t)
  | CallText (this : ref) (text : jsstring)
  | CallDefaults (this : ref) (values : Obj.object value)
  | CallSchema (this : ref) (schema : JSONSchema)
  | CallUsing (this : ref) (generator : Generator.t)
  | CallVars (this : ref) (vars : Obj.object value)
  | CallToString (this : ref)
  | CallToJSON (this : ref)
  | CallGenerate (this : ref) (vars : option (Obj.object value))
  | CallFromJSON (data : PromptOptions.t) (generator : Generator.t).

Section Methods.
(** The two library entry points the class calls. *)
Variable compile : Ajv.Compiler.
Variable JSON_parse : JSON.Decoder.

(** [new PromptClass(options)]: the fields are set, the validator is
    compiled when a schema is given, and the object is handed out only
    when the constructor returns. *)
Definition new (options : PromptOptions.t) : M ref :=
  let this :=
    {| _generator := PromptOptions.generator options;
       _text := PromptOptions.text options;
       _defaults := default [] (PromptOptions.defaults options);
       _schema := PromptOptions.schema options;
       _format :=
         match PromptOptions.format options with
         | Some (c :: f) => c :: f
         | _ => str "json"
         end;
       _vars := None;
       _validator := None |} in
  match PromptOptions.schema options with
  | Some s =>
      validator ← lift (compile s);
      alloc (set_validator (Some validator) this)
  | None => alloc this
  end.

Definition text (this : ref) (text : jsstring) : M ref :=
  _ ← read this;
  write this (set_text (Some text));;
  mret this.

Definition defaults (this : ref) (values : Obj.object value) : M ref :=
  _ ← read this;
  write this (set_defaults values);;
  mret this.

Definition schema (this : ref) (schema : JSONSchema) : M ref :=
  _ ← read this;
  write this (set_schema (Some schema));;
  validator ← lift (compile schema);
  write this (set_validator (Some validator));;
  mret this.

(** The method [using]; the name is reserved here. *)
Definition using_ (this : ref) (generator : Generator.t) : M ref :=
  _ ← read this;
  write this (set_generator (Some generator));;
  mret this.

Definition toJSON (this : ref) : M PromptOptions.t :=
  e ← read this;
  mret {| PromptOptions.text := _text e;
          PromptOptions.defaults := Some (_defaults e);
          PromptOptions.schema := _schema e;
          PromptOptions.generator := None;
          PromptOptions.format := None |}.

Definition vars (this : ref) (vars : Obj.object value) : M ref :=
  options ← toJSON this;
  newPrompt ← new options;
  write newPrompt (set_vars (Some vars));;
  mret newPrompt.

Definition toString (this : ref) : M jsstring :=
  e ← read this;
  lift (resolvePrompt e None).

(** [generate] is asynchronous: the completion is what its promise settles
    with, and the only suspension is the call of the backend. *)
Definition generate (this : ref) (vars : option (Obj.object value))
    : M generated :=
  e ← read this;
  match _generator e with
  | None => throw (Error no_generator_message)
  | Some generator =>
      prompt ← lift (resolvePrompt e vars);
      generatedText ← await_execute generator prompt;
      match _schema e, _validator e with
      | Some _, Some _ =>
          data ← lift (JSON_parse generatedText);
          lift (validate e data);;
          mret (Data data)
      | _, _ => mret (RawText generatedText)
      end
  end.

Definition fromJSON (data : PromptOptions.t) (generator : Generator.t)
    : M ref :=
  this ← new data;
  using_ this generator.

(** The exported function [Prompt(options?)]. *)
Definition Prompt (options : option PromptOptions.t) : M ref :=
  new (default PromptOptions.empty options).

(** [Generator.prototype.prompt(options?)]. *)
Definition Generator_prompt (g : Generator.t)
    (options : option PromptOptions.t) : M ref :=
  let o := default PromptOptions.empty options in
  new {| PromptOptions.generator := Some g;
         PromptOptions.text := PromptOptions.text o;
         PromptOptions.schema := PromptOptions.schema o;
         PromptOptions.defaults := PromptOptions.defaults o;
         PromptOptions.format := PromptOptions.format o |}.

(** *** Sequences of calls

    A call of the public interface, and the world it leaves behind, whether
    it returns or throws. *)
Definition perform (c : call) (w : world) : world :=
  match c with
  | CallNew options => (new options w).2
  | CallText this t => (text this t w).2
  | CallDefaults this values => (defaults this values w).2
  | CallSchema this s => (schema this s w).2
  | CallUsing this g => (using_ this g w).2
  | CallVars this v => (vars this v w).2
  | CallToString this => (toString this w).2
  | CallToJSON this => (toJSON this w).2
  | CallGenerate this v => (generate this v w).2
  | CallFromJSON data g => (fromJSON data g w).2
  end.

Definition perform_all (cs : list call) (w : world) : world :=
  fold_left (fun w c => perform c w) cs w.

(** The call is no [schema] call that the compiler refuses. *)
Definition schema_call_compiles (c : call) : bool :=
  match c with
  | CallSchema _ s =>
      match compile s with Return _ => true | Throw _ => false end
  | _ => true
  end.

End Methods.

Definition empty_world : world := {| heap := []; calls := [] |}.

(** *** Schema and validator in step

    The validator of an engine is the one compiled from its schema, and
    there is none when there is no schema. *)
Definition in_sync (compile : Ajv.Compiler) (e : t) : Prop :=
  match _schema e with
  | Some s => exists validator,
      compile s = Return validator /\ _validator e = Some validator
  | None => _validator e = None
  end.

Definition all_in_sync (compile : Ajv.Compiler) (w : world) : Prop :=
  Forall (in_sync compile) (heap w).

(** Every engine of the world has a format label that is not empty. *)
Definition has_format (w : world) : Prop :=
  Forall (fun e => _format e <> []) (heap w).

(** The schema of the engine, when it has one, is one the library accepts. *)
Definition schema_compiles (compile : Ajv.Compiler) (e : t) : bool :=
  match _schema e with
  | Some s => match compile s with Return _ => true | Throw _ => false end
  | None => true
  end.

End PromptClass.

(** ** Engines and values used below *)

Module Examples.
Import JS JSON Schema Value PromptClass.

Definition string_schema : JSONSchema := mkSchema (str "string") [] None [].

(** [{type: 'object', properties: {title: {type: 'string'}, year: {type:
    'string'}}, required: ['title', 'year']}] *)
Definition book_schema : JSONSchema :=
  mkSchema (str "object")
    [(str "title", string_schema); (str "year", string_schema)]
    None [str "title"; str "year"].

(** [{type: 'array', items: book_schema}] *)
Definition books_schema : JSONSchema :=
  mkSchema (str "array") [] (Some book_schema) [].

(** A schema that is well typed and that the library refuses: [required]
    names a property twice. *)
Definition twice_required_schema : JSONSchema :=
  mkSchema (str "object") [(str "a", string_schema)] None [str "a"; str "a"].

Definition books_template : jsstring := str "List {{num}} books by {{name}}.".

(** The engine of the test 'should generate a prompt' of
    [tests/Prompt.test.ts], built the way the test builds it. *)
Definition books_prompt : M ref :=
  p ← Prompt Ajv.compile (Some PromptOptions.empty);
  p ← text p books_template;
  p ← defaults p [(str "num", VNumber 3)];
  p ← schema Ajv.compile p books_schema;
  vars Ajv.compile p [(str "name", VString (str "George Orwell"))].

Definition books_engine : PromptClass.t :=
  {| _text := Some books_template;
     _defaults := [(str "num", VNumber 3)];
     _schema := Some books_schema;
     _vars := Some [(str "name", VString (str "George Orwell"))];
     _generator := None;
     _validator := Some (Ajv.validator books_schema);
     _format := str "json" |}.

Definition quoted (s : string) : jsstring := dquote :: str s ++ [dquote].

(** The text the test expects. *)
Definition books_text : jsstring :=
  join [newline]
    [ str "List 3 books by George Orwell. Please provide a json response with the following structure:";
      str "[";
      str "  {";
      str "    " ++ quoted "title" ++ str ": " ++ quoted "string" ++ str ",";
      str "    " ++ quoted "year" ++ str ": " ++ quoted "string";
      str "  }";
      str "]" ].

(** A backend that answers every prompt with the same text. *)
Definition constant_backend (answer : jsstring) : Generator.t :=
  {| Generator.model := None; Generator.baseUrl := None;
     Generator.apiKey := str "key";
     Generator.execute := fun _ => Return answer |}.

(** An engine with a template only. *)
Definition plain_engine (template : jsstring) (bindings : Obj.object value)
    : PromptClass.t :=
  {| _text := Some template; _defaults := bindings; _schema := None;
     _vars := None; _generator := None; _validator := None;
     _format := str "json" |}.

(** An engine that asks for one book, bound to a backend. *)
Definition book_engine (g : Generator.t) (format : jsstring) : PromptClass.t :=
  {| _text := Some (str "Name a book."); _defaults := [];
     _schema := Some book_schema; _vars := None; _generator := Some g;
     _validator := Some (Ajv.validator book_schema); _format := format |}.

Definition one_engine (e : PromptClass.t) : world :=
  {| heap := [e]; calls := [] |}.

(** What [resolvePrompt] appends for [book_schema] under a format label. *)
Definition book_directive (format : string) : jsstring :=
  join [newline]
    [ str " Please provide a " ++ str format
      ++ str " response with the following structure:";
      str "{";
      str "  " ++ quoted "title" ++ str ": " ++ quoted "string" ++ str ",";
      str "  " ++ quoted "year" ++ str ": " ++ quoted "string";
      str "}" ].

(** The options [book_engine] is constructed from. *)
Definition book_options (g : Generator.t) (format : option jsstring)
    : PromptOptions.t :=
  {| PromptOptions.generator := Some g;
     PromptOptions.text := Some (str "Name a book.");
     PromptOptions.schema := Some book_schema;
     PromptOptions.defaults := None;
     PromptOptions.format := format |}.

(** Construct an engine, serialise it, build an engine from the record, and
    resolve both with the same variables. *)
Definition round_trip (options : PromptOptions.t) (g : Generator.t)
    (v : Obj.object value) : M (completion jsstring * completion jsstring) :=
  original ← new Ajv.compile options;
  data ← toJSON original;
  restored ← fromJSON Ajv.compile data g;
  e0 ← read original;
  e1 ← read restored;
  mret (resolvePrompt e0 (Some v), resolvePrompt e1 (Some v)).

(** A well-formed answer for [book_schema]. *)
Definition orwell_answer : jsstring :=
  str "{" ++ quoted "title" ++ str ": " ++ quoted "1984" ++ str ", "
  ++ quoted "year" ++ str ": " ++ quoted "1949" ++ str "}".

(** The template of [books_template] as segments. *)
Definition books_segments : list Template.segment :=
  [ Template.Lit (str "List "); Template.Hole [] (str "num") [];
    Template.Lit (str " books by "); Template.Hole [] (str "name") [];
    Template.Lit (str ".") ].

Definition books_bindings : Obj.object value :=
  [(str "num", VNumber 3); (str "name", VString (str "George Orwell"))].

End Examples.

(** ** The OpenAI backend ([Generator.ts], [OpenAIGenerator])

    The HTTP client is a parameter: [axios.post(url, data, {headers})]
    settles with a response, of which the program reads [data] only
    ([None] for [undefined]), or rejects. *)

Module OpenAI.
Import JS JSON.

Definition DEFAULT_OPENAI_MODEL : jsstring := str "text-davinci-003".

Definition url : jsstring := str "https://api.openai.com/v1/completions".

Record Request : Type := {
  prompt : jsstring;
  model : jsstring;
  max_tokens : Z
}.

Record Headers : Type := {
  Authorization : jsstring;
  Content_Type : jsstring
}.

Definition Post : Type :=
  jsstring -> Request -> Headers -> completion (option json).

(** [data?.choices]: the property of an object; [undefined] for [null],
    [undefined] and for the values that have no such property. *)
Definition choices_of (data : option json) : option json :=
  match data with
  | Some (JObject members) => Obj.get (str "choices") members
  | _ => None
  end.

(** [choices?.[0]]: the first element of an array, the property [0] of an
    object, the first character of a string. *)
Definition first_of (choices : option json) : option json :=
  match choices with
  | Some (JArray elements) => head elements
  | Some (JObject members) => Obj.get (str "0") members
  | Some (JString (c :: _)) => Some (JString [c])
  | _ => None
  end.

(** [choice?.text]. *)
Definition text_of (choice : option json) : option json :=
  match choice with
  | Some (JObject members) => Obj.get (str "text") members
  | _ => None
  end.

(** [ToBoolean]. *)
Definition truthy (v : option json) : bool :=
  match v with
  | None | Some JNull | Some (JBool false) | Some (JString []) => false
  | Some (JNumber n) => negb (n =? 0)%Z
  | _ => true
  end.

Fixpoint trim_start (s : jsstring) : jsstring :=
  match s with
  | c :: r => if is_space c then trim_start r else s
  | [] => []
  end.

(** [String.prototype.trim]: white space and line terminators go, at both
    ends. *)
Definition trim (s : jsstring) : jsstring :=
  rev (trim_start (rev (trim_start s))).

(** The function [execute] that [OpenAIGenerator] builds. *)
Definition execute (post : Post) (options : GeneratorOptions.t)
    (prompt : jsstring) (maxTokens : option Z) : completion jsstring :=
  let headers :=
    {| Authorization := str "Bearer " ++ GeneratorOptions.apiKey options;
       Content_Type := str "application/json" |} in
  let data :=
    {| prompt := prompt;
       model :=
         match GeneratorOptions.model options with
         | Some (c :: m) => c :: m
         | _ => DEFAULT_OPENAI_MODEL
         end;
       max_tokens := default 300%Z maxTokens |} in
  match post url data headers with
  | Throw e => Throw e
  | Return response_data =>
      let text := text_of (first_of (choices_of response_data)) in
      if truthy text then
        match text with
        | Some (JString s) => Return (trim s)
        | _ => Throw (TypeError (str "trim is not a function"))
        end
      else Throw (Error (str "Invalid response from OpenAI API"))
  end.

(** [OpenAIGenerator(options)]: a generator with the fields of [options]
    and this [execute], called by the engine with the prompt alone. *)
Definition OpenAIGenerator (post : Post) (options : GeneratorOptions.t)
    : Generator.t :=
  Generator.new
    {| GeneratorOptions.model := GeneratorOptions.model options;
       GeneratorOptions.baseUrl := GeneratorOptions.baseUrl options;
       GeneratorOptions.apiKey := GeneratorOptions.apiKey options;
       GeneratorOptions.execute :=
         Some (fun prompt => execute post options prompt None) |}.

(** A text is trimmed when it neither starts nor ends with white space. *)
Definition starts_clean (s : jsstring) : bool :=
  match s with
  | c :: _ => negb (is_space c)
  | [] => true
  end.

Definition trimmed (s : jsstring) : bool :=
  starts_clean s && starts_clean (rev s).

(** A response whose first choice has the text [s]. *)
Definition completion_response (s : jsstring) (more : list json)
    (others : Obj.object json) : option json :=
  Some (JObject ((str "choices",
                  JArray (JObject [(str "text", JString s)] :: more))
                 :: others)).

End OpenAI.

(** ** Shapes of schemas *)

Module SchemaShape.
Import JS JSON Schema.

(** Every array schema that [describeSchema] reaches has [items]. *)
Fixpoint describable (schema : JSONSchema) : bool :=
  match schema with
  | mkSchema type properties items _ =>
      if text_eqb type (str "object") then
        forallb (fun kv => describable kv.2) properties
      else if text_eqb type (str "array") then
        match items with
        | Some itemSchema =>
            if text_eqb (Schema.type itemSchema) (str "object")
            then describable itemSchema else true
        | None => false
        end
      else true
  end.

(** The loop of [describeSchema] over the properties of an object schema,
    from the properties that are left and the object built so far. *)
Definition describe_properties :=
  fix props (ps : list (jsstring * JSONSchema)) (acc : Obj.object json)
      : option (Obj.object json) :=
    match ps with
    | [] => Some acc
    | (key, sub) :: r =>
        match describeSchema sub with
        | Some d => props r (Obj.assign key d acc)
        | None => None
        end
    end.

(** The names are created in this order as own properties: none is an
    array index or [__proto__], none occurs twice. *)
Definition plain_name (k : jsstring) : bool :=
  match Obj.array_index k with
  | Some _ => false
  | None => negb (text_eqb k (str "__proto__"))
  end.

Definition plain_names (names : list jsstring) : bool :=
  bool_decide (NoDup names) && forallb plain_name names.

End SchemaShape.

(** ** Further examples *)

Module Scenarios.
Import JS JSON Schema Value PromptClass Examples OpenAI.

(** An HTTP client that answers every request with the same body. *)
Definition constant_post (response : option json) : Post :=
  fun _ _ _ => Return response.

Definition openai_options : GeneratorOptions.t :=
  {| GeneratorOptions.model := None;
     GeneratorOptions.baseUrl := None;
     GeneratorOptions.apiKey := str "sk-test";
     GeneratorOptions.execute := None |}.

(** A completion whose first choice is padded with white space. *)
Definition greeting_response : option json :=
  completion_response (str "  Hello, Ada." ++ [newline])
    [JObject [(str "text", JString (str "Bye."))]]
    [(str "model", JString DEFAULT_OPENAI_MODEL)].

(** An engine without a schema, bound to a backend. *)
Definition greeting_engine (g : Generator.t) : PromptClass.t :=
  set_generator (Some g)
    (plain_engine (str "Greet {{name}}.") [(str "name", VString (str "Ada"))]).

(** An engine left with a schema that the library refuses. *)
Definition refused_engine : PromptClass.t :=
  set_schema (Some twice_required_schema)
    (book_engine (constant_backend (str "{}")) (str "json")).

(** Bindings with a name that [books_template] does not use; its value is
    a replacement pattern with a placeholder inside. *)
Definition spare_binding : jsstring * value :=
  (str "extra", VString (str "$& and {{num}}")).

(** A session with the public interface. *)
Definition session : list call :=
  [ CallNew (book_options (constant_backend orwell_answer) None);
    CallText 0 books_template;
    CallSchema 0 books_schema;
    CallVars 0 books_bindings;
    CallGenerate 1 None;
    CallFromJSON PromptOptions.empty (constant_backend (str "{}")) ].

End Scenarios.

(** * Properties *)

Module JSFacts.
Import JS Template.

Lemma text_eqb_true (a b : jsstring) : text_eqb a b = true <-> a = b.
Proof. unfold text_eqb. apply bool_decide_eq_true. Qed.

Lemma text_eqb_refl (a : jsstring) : text_eqb a a = true.
Proof. by apply text_eqb_true. Qed.

Lemma space_not_word (c : ascii) : is_space c = true -> is_word c = false.
Proof.
  destruct c as [[] [] [] [] [] [] [] []]; vm_compute; congruence.
Qed.

Lemma space_not_brace (c : ascii) : is_space c = true -> is_brace c = false.
Proof.
  destruct c as [[] [] [] [] [] [] [] []]; vm_compute; congruence.
Qed.

Lemma word_not_brace (c : ascii) : is_word c = true -> is_brace c = false.
Proof.
  destruct c as [[] [] [] [] [] [] [] []]; vm_compute; congruence.
Qed.

Lemma not_brace_open (c : ascii) : is_brace c = false -> c <> "{".
Proof. intros H ->. vm_compute in H. congruence. Qed.

(** [span] splits its argument, the first part satisfies the predicate and
    the second does not start with a character that does. *)
Lemma span_spec (p : ascii -> bool) (s a b : jsstring) :
  span p s = (a, b) ->
  s = a ++ b /\ forallb p a = true
  /\ match b with [] => True | c :: _ => p c = false end.
Proof.
  revert a b. induction s as [|c r IH]; intros a b; simpl.
  - intros [= <- <-]. done.
  - destruct (p c) eqn:Hc.
    + destruct (span p r) as [a' b'] eqn:Hs. intros [= <- <-].
      destruct (IH _ _ eq_refl) as (-> & Ha & Hb).
      simpl. rewrite Hc. done.
    + intros [= <- <-]. simpl. by rewrite Hc.
Qed.

Lemma strip_prefix_Some (p s r : jsstring) :
  strip_prefix p s = Some r <-> s = p ++ r.
Proof.
  revert s. induction p as [|a p IH]; intros s; simpl.
  - split; congruence.
  - destruct s as [|b s]; [split; congruence|].
    case_bool_decide; subst.
    + rewrite IH. split; congruence.
    + split; congruence.
Qed.

Lemma strip_prefix_app (p r : jsstring) : strip_prefix p (p ++ r) = Some r.
Proof. by apply strip_prefix_Some. Qed.

End JSFacts.

Module ObjFacts.
Import JS JSFacts.

Section Objects.
Context {V : Type}.
Implicit Types (o : Obj.object V) (k : jsstring) (v : V).

Lemma get_update o k k' v :
  Obj.has k' o = true ->
  Obj.get k (Obj.update k' v o)
  = if text_eqb k' k then Some v else Obj.get k o.
Proof.
  unfold Obj.has. induction o as [|[k0 v0] o IH]; simpl; [done|].
  destruct (text_eqb k0 k') eqn:E0; simpl.
  - apply text_eqb_true in E0 as ->. intros _. by destruct (text_eqb k' k).
  - intros H. rewrite (IH H).
    destruct (text_eqb k0 k) eqn:E1, (text_eqb k' k) eqn:E2; try done.
    apply text_eqb_true in E1 as ->. apply text_eqb_true in E2 as ->.
    by rewrite text_eqb_refl in E0.
Qed.

Lemma get_insert_index o k k' v n :
  Obj.has k' o = false ->
  Obj.get k (Obj.insert_index n k' v o)
  = if text_eqb k' k then Some v else Obj.get k o.
Proof.
  unfold Obj.has. induction o as [|[k0 v0] o IH]; simpl; [done|].
  intros [E0 H]%orb_false_iff.
  destruct (Obj.array_index k0) as [n0|]; [|done].
  destruct (n0 <? n)%N; [|done]. simpl. rewrite (IH H).
  destruct (text_eqb k0 k) eqn:E1, (text_eqb k' k) eqn:E2; try done.
  apply text_eqb_true in E1 as ->. apply text_eqb_true in E2 as ->.
  by rewrite text_eqb_refl in E0.
Qed.

Lemma get_snoc o k k' v :
  Obj.has k' o = false ->
  Obj.get k (o ++ [(k', v)])
  = if text_eqb k' k then Some v else Obj.get k o.
Proof.
  unfold Obj.has. induction o as [|[k0 v0] o IH]; simpl; [done|].
  intros [E0 H]%orb_false_iff. rewrite (IH H).
  destruct (text_eqb k0 k) eqn:E1, (text_eqb k' k) eqn:E2; try done.
  apply text_eqb_true in E1 as ->. apply text_eqb_true in E2 as ->.
  by rewrite text_eqb_refl in E0.
Qed.

(** Defining a property gives it the new value and leaves the others. *)
Lemma get_set o k k' v :
  Obj.get k (Obj.set k' v o) = if text_eqb k' k then Some v else Obj.get k o.
Proof.
  unfold Obj.set. destruct (Obj.has k' o) eqn:H.
  - by apply get_update.
  - destruct (Obj.array_index k'); [by apply get_insert_index|by apply get_snoc].
Qed.

(** A spread element overrides the properties it names and keeps the
    others. *)
Lemma get_spread (target source : Obj.object V) k :
  NoDup (Obj.keys source) ->
  Obj.get k (Obj.spread target source)
  = match Obj.get k source with
    | Some v => Some v
    | None => Obj.get k target
    end.
Proof.
  unfold Obj.spread. revert target.
  induction source as [|[k1 v1] source IH]; intros target Hnd; [done|].
  cbn [fold_left fst snd Obj.keys map] in *.
  apply NoDup_cons in Hnd as [Hk1 Hnd]. rewrite (IH _ Hnd), get_set.
  cbn [Obj.get]. destruct (text_eqb k1 k) eqn:E; [|done].
  apply text_eqb_true in E as ->.
  destruct (Obj.get k source) as [v|] eqn:Hget; [|done].
  exfalso. apply Hk1. clear -Hget.
  induction source as [|[k2 v2] source IH]; [done|]. simpl in *.
  destruct (text_eqb k2 k) eqn:E.
  - apply text_eqb_true in E as ->. by left.
  - right. by apply IH.
Qed.

End Objects.
End ObjFacts.

Module ScanFacts.
Import JS Template JSFacts.

(** Equalities of texts up to the association of [++]. *)
Ltac text_eq :=
  unfold placeholder, open_braces, close_braces;
  repeat first [progress simpl | rewrite <- app_assoc]; try done.

Lemma Forall_not_open_blank (ws : jsstring) :
  is_blank ws = true -> Forall (fun c => c <> "{") ws.
Proof.
  induction ws as [|c ws IH]; simpl; [constructor|].
  intros [Hc Hws]%andb_true_iff. constructor; [|by apply IH].
  by apply not_brace_open, space_not_brace.
Qed.

Lemma Forall_not_open_identifier (k : jsstring) :
  is_identifier k = true -> Forall (fun c => c <> "{") k.
Proof.
  induction k as [|c k IH]; simpl; [constructor|].
  intros [Hc Hk]%andb_true_iff. constructor; [|by apply IH].
  by apply not_brace_open, word_not_brace.
Qed.

Lemma placeholder_shape (ws1 name ws2 : jsstring) :
  is_blank ws1 = true -> is_identifier name = true -> is_blank ws2 = true ->
  exists b body, placeholder ws1 name ws2 = "{" :: "{" :: b :: body
                 /\ Forall (fun c => c <> "{") (b :: body).
Proof.
  intros H1 Hn H2. unfold placeholder, open_braces, close_braces.
  assert (Forall (fun c => c <> "{") (ws1 ++ name ++ ws2 ++ ["}"; "}"])) as HF.
  { rewrite !Forall_app. split_and!;
      auto using Forall_not_open_blank, Forall_not_open_identifier.
    all: repeat constructor; done. }
  destruct (ws1 ++ name ++ ws2 ++ ["}"; "}"]) as [|b body] eqn:E.
  - by destruct ws1, name, ws2.
  - exists b, body. done.
Qed.

Lemma match_key_inv (key s matched rest : jsstring) :
  match_key key s = Some (matched, rest) ->
  exists ws1 ws2, matched = placeholder ws1 key ws2 /\ s = matched ++ rest
                  /\ is_blank ws1 = true /\ is_blank ws2 = true.
Proof.
  unfold match_key. intros H.
  destruct (strip_prefix open_braces s) as [r0|] eqn:H0;
    [|cbn [mbind option_bind] in H; congruence].
  cbn [mbind option_bind] in H. destruct (span is_space r0) as [ws1 r1] eqn:H1.
  destruct (strip_prefix key r1) as [r2|] eqn:H2;
    [|cbn [mbind option_bind] in H; congruence].
  cbn [mbind option_bind] in H. destruct (span is_space r2) as [ws2 r3] eqn:H3.
  destruct (strip_prefix close_braces r3) as [rest'|] eqn:H4;
    [|cbn [mbind option_bind] in H; congruence].
  cbn [mbind option_bind] in H. injection H as <- <-.
  apply strip_prefix_Some in H0 as ->.
  apply span_spec in H1 as (-> & Hws1 & _).
  apply strip_prefix_Some in H2 as ->.
  apply span_spec in H3 as (-> & Hws2 & _).
  apply strip_prefix_Some in H4 as ->.
  exists ws1, ws2. unfold placeholder.
  split_and!; try done. text_eq.
Qed.

Lemma match_placeholder_inv (s matched rest : jsstring) :
  match_placeholder s = Some (matched, rest) ->
  exists ws1 name ws2, matched = placeholder ws1 name ws2 /\ s = matched ++ rest
    /\ is_blank ws1 = true /\ is_identifier name = true /\ name <> []
    /\ is_blank ws2 = true.
Proof.
  unfold match_placeholder. intros H.
  destruct (strip_prefix open_braces s) as [r0|] eqn:H0;
    [|cbn [mbind option_bind] in H; congruence].
  cbn [mbind option_bind] in H. destruct (span is_space r0) as [ws1 r1] eqn:H1.
  destruct (span is_word r1) as [name r2] eqn:H2.
  destruct name as [|n0 name]; [done|].
  destruct (span is_space r2) as [ws2 r3] eqn:H3.
  destruct (strip_prefix close_braces r3) as [rest'|] eqn:H4;
    [|cbn [mbind option_bind] in H; congruence].
  cbn [mbind option_bind] in H. injection H as <- <-.
  apply strip_prefix_Some in H0 as ->.
  apply span_spec in H1 as (-> & Hws1 & _).
  apply span_spec in H2 as (-> & Hname & _).
  apply span_spec in H3 as (-> & Hws2 & _).
  apply strip_prefix_Some in H4 as ->.
  exists ws1, (n0 :: name), ws2.
  split_and!; try done. text_eq.
Qed.

Lemma match_key_braced (key : jsstring) :
  is_identifier key = true -> braced (match_key key).
Proof.
  intros Hkey s matched rest H.
  apply match_key_inv in H as (ws1 & ws2 & -> & -> & H1 & H2).
  split; [done|]. by apply placeholder_shape.
Qed.

Lemma match_placeholder_braced : braced match_placeholder.
Proof.
  intros s matched rest H.
  apply match_placeholder_inv in H as (ws1 & name & ws2 & -> & -> & H1 & Hn & _ & H2).
  split; [done|]. by apply placeholder_shape.
Qed.

(** A braced matcher finds nothing at a text that does not start with two
    opening braces followed by another character. *)
Lemma braced_None_head (m : matcher) (c : ascii) (s : jsstring) :
  braced m -> c <> "{" -> m (c :: s) = None.
Proof.
  intros Hm Hc. destruct (m (c :: s)) as [[matched rest]|] eqn:E; [|done].
  apply Hm in E as (E & b & body & -> & _). by injection E as ->.
Qed.

Lemma braced_None_second (m : matcher) (c d : ascii) (s : jsstring) :
  braced m -> d <> "{" -> m (c :: d :: s) = None.
Proof.
  intros Hm Hd. destruct (m (c :: d :: s)) as [[matched rest]|] eqn:E; [|done].
  apply Hm in E as (E & b & body & -> & _). by injection E as -> ->.
Qed.

Section Scan.
Variable m : matcher.
Hypothesis Hm : braced m.
Variable replacement : jsstring.

(** A match that starts before a placeholder ends before it. *)
Lemma match_stays_before (p tb post matched rest : jsstring) (c : ascii) :
  m ((c :: p) ++ "{" :: "{" :: tb ++ post) = Some (matched, rest) ->
  length matched <= S (length p).
Proof.
  intros H. apply Hm in H as (E & b & body & -> & HF).
  destruct p as [|c2 p].
  - simpl in E. simplify_eq. by apply Forall_cons in HF as [? _].
  - assert (p ++ "{" :: "{" :: tb ++ post = (b :: body) ++ rest) as E'
      by (simpl in *; congruence).
    clear E.
    destruct (decide (length (b :: body) <= length p)) as [|Hlen];
      [simpl in *; lia|].
    exfalso.
    assert (exists y, b :: body = p ++ "{" :: y) as [y Hy].
    { clear -E' Hlen. revert E' Hlen. generalize (b :: body) as l.
      induction p as [|x p IH]; intros l E Hlen; simpl in *.
      - destruct l as [|z l]; simpl in *; [lia|]. injection E as <- E. eauto.
      - destruct l as [|z l]; simpl in *; [lia|]. injection E as <- E.
        destruct (IH l) as [y ->]; [done|lia|]. eauto. }
    rewrite Hy in HF. apply Forall_app in HF as [_ HF].
    by apply Forall_cons in HF as [? _].
Qed.

(** Passing over the rest of a match. *)
Lemma replace_from_skip (x s before : jsstring) :
  replace_from m replacement before (length x) (x ++ s)
  = replace_from m replacement (rev x ++ before) 0 s.
Proof.
  revert before. induction x as [|c x IH]; intros before; simpl.
  - done.
  - rewrite IH. by rewrite <- app_assoc.
Qed.

Lemma match_from_skip (x s : jsstring) :
  match_from m (length x) (x ++ s) = match_from m 0 s.
Proof. induction x as [|c x IH]; simpl; done. Qed.

Lemma replace_from_None (c : ascii) (s before : jsstring) :
  m (c :: s) = None ->
  replace_from m replacement before 0 (c :: s)
  = c :: replace_from m replacement (c :: before) 0 s.
Proof. intros H. simpl. by rewrite H. Qed.

Lemma match_from_Some (c : ascii) (s matched rest : jsstring) :
  m (c :: s) = Some (matched, rest) ->
  match_from m 0 (c :: s) = matched :: match_from m 0 rest.
Proof.
  intros H. simpl. rewrite H. f_equal.
  apply Hm in H as (E & b & body & -> & _). simpl in E. injection E as -> ->.
  simpl.
  change (S (S (length body))) with (length ("{" :: b :: body)).
  change ("{" :: b :: body ++ rest) with (("{" :: b :: body) ++ rest).
  apply match_from_skip.
Qed.

Lemma replace_from_Some (c : ascii) (s matched rest before : jsstring) :
  m (c :: s) = Some (matched, rest) ->
  replace_from m replacement before 0 (c :: s)
  = GetSubstitution matched (rev before) rest replacement
    ++ replace_from m replacement (rev matched ++ before) 0 rest.
Proof.
  intros H. simpl. rewrite H. f_equal.
  apply Hm in H as (E & b & body & -> & _). simpl in E. injection E as -> ->.
  simpl.
  change (S (S (length body))) with (length ("{" :: b :: body)).
  change ("{" :: b :: body ++ rest) with (("{" :: b :: body) ++ rest).
  rewrite replace_from_skip. simpl. by rewrite <- !app_assoc.
Qed.

(** Text without an opening brace is copied. *)
Lemma replace_from_literal (x s before : jsstring) :
  Forall (fun c => c <> "{") x ->
  replace_from m replacement before 0 (x ++ s)
  = x ++ replace_from m replacement (rev x ++ before) 0 s.
Proof.
  intros Hx. revert before. induction Hx as [|c x Hc Hx IH]; intros before.
  - done.
  - simpl. rewrite (braced_None_head m c (x ++ s) Hm Hc), IH.
    by rewrite <- app_assoc.
Qed.

Lemma match_from_literal (x s : jsstring) :
  Forall (fun c => c <> "{") x ->
  match_from m 0 (x ++ s) = match_from m 0 s.
Proof.
  induction 1 as [|c x Hc Hx IH]; [done|].
  simpl. by rewrite (braced_None_head m c (x ++ s) Hm Hc).
Qed.

(** Where the matcher finds nothing at a placeholder, the placeholder is
    copied. *)
Lemma replace_from_unmatched (b : ascii) (body post before : jsstring) :
  Forall (fun c => c <> "{") (b :: body) ->
  m ("{" :: "{" :: b :: body ++ post) = None ->
  exists before',
    replace_from m replacement before 0 ("{" :: "{" :: b :: body ++ post)
    = "{" :: "{" :: b :: body ++ replace_from m replacement before' 0 post.
Proof.
  intros HF Hnone. rewrite (replace_from_None _ _ _ Hnone).
  pose proof HF as [Hb _]%Forall_cons.
  rewrite (replace_from_None _ _ _ (braced_None_second m "{" b _ Hm Hb)).
  change (b :: body ++ post) with ((b :: body) ++ post).
  rewrite (replace_from_literal _ _ _ HF). eauto.
Qed.

(** The scan up to a placeholder: what was matched before it ends before
    it, so the scan reaches it with nothing left to pass over. *)
Lemma replace_from_reaches (pre tb post before : jsstring) (skip : nat) :
  skip <= length pre ->
  exists out before',
    replace_from m replacement before skip (pre ++ "{" :: "{" :: tb ++ post)
    = out ++ replace_from m replacement before' 0 ("{" :: "{" :: tb ++ post).
Proof.
  revert before skip. induction pre as [|c pre IH]; intros before skip Hskip.
  - simpl in Hskip. replace skip with 0 by lia. by exists [], before.
  - cbn [app replace_from]. destruct skip as [|n].
    + destruct (m (c :: pre ++ "{" :: "{" :: tb ++ post))
        as [[matched rest]|] eqn:E.
      * apply (match_stays_before pre tb post matched rest c) in E as Hlen.
        destruct (IH (c :: before) (length matched - 1)) as (out & b' & ->);
          [lia|].
        eexists (_ ++ out), b'. by rewrite <- app_assoc.
      * destruct (IH (c :: before) 0) as (out & b' & ->); [lia|].
        by exists (c :: out), b'.
    + simpl in Hskip. apply IH. lia.
Qed.

Lemma match_from_reaches (pre tb post : jsstring) (skip : nat) :
  skip <= length pre ->
  exists out,
    match_from m skip (pre ++ "{" :: "{" :: tb ++ post)
    = out ++ match_from m 0 ("{" :: "{" :: tb ++ post).
Proof.
  revert skip. induction pre as [|c pre IH]; intros skip Hskip.
  - simpl in Hskip. replace skip with 0 by lia. by exists [].
  - cbn [app match_from]. destruct skip as [|n].
    + destruct (m (c :: pre ++ "{" :: "{" :: tb ++ post))
        as [[matched rest]|] eqn:E.
      * apply (match_stays_before pre tb post matched rest c) in E as Hlen.
        destruct (IH (length matched - 1)) as (out & ->); [lia|].
        by exists (matched :: out).
      * apply IH. lia.
    + simpl in Hskip. apply IH. lia.
Qed.

End Scan.
End ScanFacts.

Module TemplateFacts.
Import JS Value Template JSFacts ScanFacts.

Lemma span_app_stops (p : ascii -> bool) (a b : jsstring) :
  forallb p a = true ->
  match b with [] => True | c :: _ => p c = false end ->
  span p (a ++ b) = (a, b).
Proof.
  intros Ha Hb. induction a as [|x a IH]; simpl in *.
  - destruct b as [|c b]; [done|]. simpl. by rewrite Hb.
  - apply andb_true_iff in Ha as [Hx Ha]. by rewrite Hx, (IH Ha).
Qed.

Lemma word_not_space (c : ascii) : is_word c = true -> is_space c = false.
Proof.
  intros Hw. destruct (is_space c) eqn:Hs; [|done].
  apply space_not_word in Hs. congruence.
Qed.

(** What follows the name of a placeholder starts with a character that is
    no word character. *)
Lemma after_name_not_word (ws2 post : jsstring) :
  is_blank ws2 = true ->
  match ws2 ++ close_braces ++ post with
  | [] => True
  | c :: _ => is_word c = false
  end.
Proof.
  destruct ws2 as [|c ws2]; simpl; [done|].
  intros [Hc _]%andb_true_iff. by apply space_not_word.
Qed.

Section Placeholder.
Variables ws1 name ws2 : jsstring.
Hypothesis Hws1 : is_blank ws1 = true.
Hypothesis Hname : is_identifier name = true.
Hypothesis Hne : name <> [].
Hypothesis Hws2 : is_blank ws2 = true.

Lemma span_ws1 (post : jsstring) :
  span is_space (ws1 ++ name ++ ws2 ++ close_braces ++ post)
  = (ws1, name ++ ws2 ++ close_braces ++ post).
Proof.
  apply span_app_stops; [done|].
  destruct name as [|n0 name']; [done|]. simpl in *.
  apply andb_true_iff in Hname as [Hn _]. by apply word_not_space.
Qed.

Lemma span_ws2 (post : jsstring) :
  span is_space (ws2 ++ close_braces ++ post) = (ws2, close_braces ++ post).
Proof. by apply span_app_stops. Qed.

Lemma match_placeholder_at (post : jsstring) :
  match_placeholder (placeholder ws1 name ws2 ++ post)
  = Some (placeholder ws1 name ws2, post).
Proof.
  unfold match_placeholder, placeholder.
  rewrite <- !app_assoc, strip_prefix_app. cbn [mbind option_bind].
  rewrite span_ws1.
  rewrite (span_app_stops is_word name _ Hname (after_name_not_word ws2 post Hws2)).
  destruct name as [|n0 name'] eqn:E; [done|]. rewrite <- E.
  rewrite span_ws2, strip_prefix_app. done.
Qed.

Lemma match_key_at_same (post : jsstring) :
  match_key name (placeholder ws1 name ws2 ++ post)
  = Some (placeholder ws1 name ws2, post).
Proof.
  unfold match_key, placeholder.
  rewrite <- !app_assoc, strip_prefix_app. cbn [mbind option_bind].
  rewrite span_ws1, strip_prefix_app. cbn [mbind option_bind].
  rewrite span_ws2, strip_prefix_app. done.
Qed.

(** Two identifiers, each followed by a character that is no word
    character, are equal when the texts are. *)
Lemma identifier_prefix_unique (a b x y : jsstring) :
  is_identifier a = true -> is_identifier b = true ->
  match x with [] => False | c :: _ => is_word c = false end ->
  match y with [] => False | c :: _ => is_word c = false end ->
  a ++ x = b ++ y -> a = b.
Proof.
  revert b. induction a as [|c a IH]; intros b Ha Hb Hx Hy E.
  - destruct b as [|d b]; [done|]. simpl in *. subst x.
    apply andb_true_iff in Hb as [Hd _]. congruence.
  - destruct b as [|d b]; simpl in *.
    + subst y. apply andb_true_iff in Ha as [Hc _]. congruence.
    + injection E as -> E. apply andb_true_iff in Ha as [_ Ha].
      apply andb_true_iff in Hb as [_ Hb]. f_equal. eauto.
Qed.

Lemma match_key_at_other (key post : jsstring) :
  is_identifier key = true -> key <> name ->
  match_key key (placeholder ws1 name ws2 ++ post) = None.
Proof.
  intros Hkey Hneq. unfold match_key, placeholder.
  rewrite <- !app_assoc, strip_prefix_app. cbn [mbind option_bind].
  rewrite span_ws1.
  destruct (strip_prefix key _) as [r2|] eqn:E; [|done].
  cbn [mbind option_bind].
  destruct (span is_space r2) as [ws2' r3] eqn:E2.
  destruct (strip_prefix close_braces r3) as [rest|] eqn:E3; [|done].
  exfalso. apply Hneq.
  apply strip_prefix_Some in E. apply span_spec in E2 as (-> & Hws2' & _).
  apply strip_prefix_Some in E3 as ->.
  symmetry in E. apply identifier_prefix_unique in E; try done.
  - destruct ws2' as [|c ?]; simpl in *; [done|].
    apply andb_true_iff in Hws2' as [? _]. by apply space_not_word.
  - destruct ws2 as [|c ?]; simpl in *; [done|].
    apply andb_true_iff in Hws2 as [? _]. by apply space_not_word.
Qed.

End Placeholder.
End TemplateFacts.

Module ResolveFacts.
Import JS Value Template Tokens JSFacts ScanFacts TemplateFacts PromptClass.

(** *** A placeholder without a binding survives the substitution *)

Section Survives.
Variables ws1 name ws2 : jsstring.
Hypothesis Hws1 : is_blank ws1 = true.
Hypothesis Hname : is_identifier name = true.
Hypothesis Hne : name <> [].
Hypothesis Hws2 : is_blank ws2 = true.

Lemma replace_keeps_placeholder (key v pre post : jsstring) :
  is_identifier key = true -> key <> name ->
  exists pre' post',
    replace (match_key key) v (pre ++ placeholder ws1 name ws2 ++ post)
    = pre' ++ placeholder ws1 name ws2 ++ post'.
Proof.
  intros Hkey Hneq. unfold replace.
  pose proof (match_key_braced key Hkey) as Hm.
  pose proof (match_key_at_other ws1 name ws2 Hws1 Hname Hne Hws2 key post
                Hkey Hneq) as Hnone.
  destruct (placeholder_shape ws1 name ws2 Hws1 Hname Hws2)
    as (b & body & E & HF).
  rewrite E in *.
  destruct (replace_from_reaches (match_key key) Hm v pre (b :: body) post [] 0)
    as (out & before' & Hreach); [lia|].
  destruct (replace_from_unmatched (match_key key) Hm v b body post before'
              HF Hnone) as (before'' & Hcopy).
  exists out. eexists.
  etrans; [exact Hreach|]. f_equal. exact Hcopy.
Qed.

Lemma substitute_keeps_placeholder (bindings : Obj.object value)
    (pre post : jsstring) :
  identifier_keys bindings = true ->
  Obj.has name bindings = false ->
  exists pre' post',
    substitute bindings (pre ++ placeholder ws1 name ws2 ++ post)
    = pre' ++ placeholder ws1 name ws2 ++ post'.
Proof.
  revert pre post. induction bindings as [|[k v] bs IH]; intros pre post Hk Hn.
  - by exists pre, post.
  - unfold identifier_keys in Hk. simpl in Hk.
    apply andb_true_iff in Hk as [Hk Hks].
    unfold Obj.has in Hn. simpl in Hn. apply orb_false_iff in Hn as [Hneq Hn].
    unfold substitute. cbn [fold_left fst snd].
    destruct (replace_keeps_placeholder k (ToString v) pre post Hk)
      as (pre1 & post1 & ->).
    { intros ->. by rewrite text_eqb_refl in Hneq. }
    by apply IH.
Qed.

Lemma match_all_finds_placeholder (pre post : jsstring) :
  placeholder ws1 name ws2
  ∈ match_all match_placeholder (pre ++ placeholder ws1 name ws2 ++ post).
Proof.
  unfold match_all.
  pose proof (match_placeholder_at ws1 name ws2 Hws1 Hname Hne Hws2 post)
    as Hsome.
  destruct (placeholder_shape ws1 name ws2 Hws1 Hname Hws2)
    as (b & body & E & HF).
  rewrite E in *.
  destruct (match_from_reaches match_placeholder match_placeholder_braced
              pre (b :: body) post 0) as (out & Hreach); [lia|].
  pose proof (match_from_Some _ match_placeholder_braced _ _ _ _ Hsome) as Hs.
  assert (match_from match_placeholder 0
            (pre ++ ("{" :: "{" :: b :: body) ++ post)
          = out ++ ("{" :: "{" :: b :: body) :: match_from match_placeholder 0 post)
    as -> by (etrans; [exact Hreach|]; f_equal; exact Hs).
  apply elem_of_app. right. apply elem_of_cons. by left.
Qed.

End Survives.

(** Every entry of the list the check builds is a placeholder. *)
Lemma match_all_placeholders (s : jsstring) :
  Forall
    (fun tok =>
       exists ws1 name ws2,
         tok = placeholder ws1 name ws2 /\ is_blank ws1 = true
         /\ is_identifier name = true /\ name <> [] /\ is_blank ws2 = true)
    (match_all match_placeholder s).
Proof.
  unfold match_all. generalize 0 as skip.
  induction s as [|c s IH]; intros skip; [constructor|].
  cbn [match_from]. destruct skip as [|n]; [|apply IH].
  destruct (match_placeholder (c :: s)) as [[matched rest]|] eqn:E; [|apply IH].
  constructor; [|apply IH].
  apply match_placeholder_inv in E
    as (ws1 & name & ws2 & -> & _ & H1 & Hn & Hne & H2).
  by exists ws1, name, ws2.
Qed.

(** *** Templates whose braces all belong to placeholders *)

Lemma plain_GetSubstitution (matched before after v : jsstring) :
  is_plain v = true -> GetSubstitution matched before after v = v.
Proof.
  induction v as [|c v IH]; [done|]. simpl.
  intros [[_ Hc]%andb_true_iff Hv]%andb_true_iff.
  case_bool_decide; [done|]. by rewrite IH.
Qed.

Lemma brace_free_not_open (s : jsstring) :
  brace_free s = true -> Forall (fun c => c <> "{") s.
Proof.
  induction s as [|c s IH]; simpl; [constructor|].
  intros [Hc Hs]%andb_true_iff. constructor; [|by apply IH].
  apply not_brace_open. by destruct (is_brace c).
Qed.

Lemma plain_brace_free (v : jsstring) : is_plain v = true -> brace_free v = true.
Proof.
  induction v as [|c v IH]; [done|]. simpl.
  intros [[Hc _]%andb_true_iff Hv]%andb_true_iff. by rewrite Hc, IH.
Qed.

Lemma replace_from_render (k v : jsstring) (segs : list segment)
    (before : jsstring) :
  is_identifier k = true -> is_plain v = true ->
  forallb wf_segment segs = true ->
  replace_from (match_key k) v before 0 (render segs)
  = render (map (fill k v) segs).
Proof.
  intros Hk Hv. pose proof (match_key_braced k Hk) as Hm.
  revert before. induction segs as [|sg segs IH]; intros before Hwf; [done|].
  simpl in Hwf. apply andb_true_iff in Hwf as [Hsg Hwf].
  change (render (sg :: segs)) with (render_segment sg ++ render segs).
  change (render (map (fill k v) (sg :: segs)))
    with (render_segment (fill k v sg) ++ render (map (fill k v) segs)).
  destruct sg as [s|ws1 name ws2]; cbn [render_segment fill wf_segment] in *.
  - rewrite (replace_from_literal _ Hm); [|by apply brace_free_not_open].
    by rewrite IH.
  - rewrite !andb_true_iff in Hsg. destruct Hsg as [[[H1 Hn] Hne] H2].
    apply negb_true_iff, bool_decide_eq_false in Hne.
    destruct (text_eqb name k) eqn:E; cbn [render_segment].
    + apply text_eqb_true in E as ->.
      pose proof (match_key_at_same ws1 k ws2 H1 Hn Hne H2 (render segs)) as Hs.
      destruct (placeholder_shape ws1 k ws2 H1 Hn H2) as (b & body & Ep & _).
      rewrite Ep in Hs |- *.
      etrans; [exact (replace_from_Some _ Hm _ _ _ _ _ _ Hs)|].
      rewrite plain_GetSubstitution by done. by rewrite IH.
    + assert (k <> name) as Hneq.
      { intros ->. by rewrite text_eqb_refl in E. }
      pose proof (match_key_at_other ws1 name ws2 H1 Hn Hne H2 k (render segs)
                    Hk Hneq) as Hnone.
      destruct (placeholder_shape ws1 name ws2 H1 Hn H2) as (b & body & Ep & HF).
      rewrite Ep in Hnone |- *.
      destruct (replace_from_unmatched _ Hm v b body (render segs) before HF Hnone)
        as (before' & Hcopy).
      etrans; [exact Hcopy|]. by rewrite IH.
Qed.

Lemma fill_wf (k v : jsstring) (segs : list segment) :
  is_plain v = true -> forallb wf_segment segs = true ->
  forallb wf_segment (map (fill k v) segs) = true.
Proof.
  intros Hv. induction segs as [|sg segs IH]; [done|]. simpl.
  intros [Hsg Hwf]%andb_true_iff. apply andb_true_iff. split; [|by apply IH].
  destruct sg as [s|ws1 name ws2]; simpl in *; [done|].
  destruct (text_eqb name k); simpl; [by apply plain_brace_free|done].
Qed.

Lemma instantiate_cons (k : jsstring) (v : value) (bs : Obj.object value)
    (segs : list segment) :
  instantiate ((k, v) :: bs) segs
  = instantiate bs (map (fill k (ToString v)) segs).
Proof.
  unfold instantiate. induction segs as [|sg segs IH]; [done|].
  cbn [flat_map map]. f_equal; [|exact IH].
  destruct sg as [s|ws1 name ws2]; cbn [fill Obj.get]; [done|].
  replace (text_eqb k name) with (text_eqb name k)
    by (unfold text_eqb; apply bool_decide_ext; naive_solver).
  by destruct (text_eqb name k).
Qed.

(** The loop of [resolvePrompt] on such a template fills the holes. *)
Lemma substitute_render (bindings : Obj.object value) (segs : list segment) :
  forallb wf_segment segs = true ->
  identifier_keys bindings = true ->
  plain_values bindings = true ->
  substitute bindings (render segs) = instantiate bindings segs.
Proof.
  revert segs. induction bindings as [|[k v] bs IH]; intros segs Hwf Hk Hv.
  - done.
  - unfold identifier_keys, plain_values in Hk, Hv.
    simpl in Hk, Hv. apply andb_true_iff in Hk as [Hk Hks].
    apply andb_true_iff in Hv as [Hv Hvs].
    rewrite instantiate_cons. unfold substitute. cbn [fold_left fst snd].
    unfold replace. rewrite replace_from_render by done.
    apply IH; [by apply fill_wf|done|done].
Qed.

Lemma get_has (k : jsstring) (o : Obj.object value) :
  Obj.has k o = true -> exists v, Obj.get k o = Some v /\ In (k, v) o.
Proof.
  unfold Obj.has. induction o as [|[k' v'] o IH]; simpl; [done|].
  destruct (text_eqb k' k) eqn:E; simpl.
  - apply text_eqb_true in E as ->. eauto.
  - intros H. destruct (IH H) as (v & ? & ?). eauto.
Qed.

Lemma instantiate_brace_free (bindings : Obj.object value)
    (segs : list segment) :
  forallb wf_segment segs = true ->
  plain_values bindings = true ->
  covers bindings segs = true ->
  brace_free (instantiate bindings segs) = true.
Proof.
  intros Hwf Hv. unfold covers, instantiate, brace_free.
  induction segs as [|sg segs IH]; [done|].
  simpl in Hwf. apply andb_true_iff in Hwf as [Hsg Hwf].
  cbn [flat_map hole_names]. rewrite !forallb_app.
  intros [Hc Hcs]%andb_true_iff. rewrite (IH Hwf Hcs), andb_true_r.
  destruct sg as [s|ws1 name ws2]; [done|].
  simpl in Hc. rewrite andb_true_r in Hc.
  destruct (get_has name bindings Hc) as (v & -> & Hin).
  apply plain_brace_free.
  unfold plain_values in Hv. rewrite forallb_forall in Hv. exact (Hv _ Hin).
Qed.

Lemma match_all_brace_free (s : jsstring) :
  brace_free s = true -> match_all match_placeholder s = [].
Proof.
  intros H. unfold match_all.
  rewrite <- (app_nil_r s).
  by rewrite (match_from_literal _ match_placeholder_braced s []
                (brace_free_not_open s H)).
Qed.

(** The placeholders the check finds in such a template are its holes, in
    their order, one entry for each occurrence. *)
Lemma match_all_render (segs : list segment) :
  forallb wf_segment segs = true ->
  match_all match_placeholder (render segs)
  = flat_map
      (fun sg =>
         match sg with
         | Lit _ => []
         | Hole ws1 name ws2 => [placeholder ws1 name ws2]
         end) segs.
Proof.
  unfold match_all. induction segs as [|sg segs IH]; [done|].
  simpl. intros [Hsg Hwf]%andb_true_iff.
  change (render (sg :: segs)) with (render_segment sg ++ render segs).
  destruct sg as [s|ws1 name ws2]; cbn [render_segment wf_segment] in *.
  - rewrite (match_from_literal _ match_placeholder_braced);
      [by apply IH|by apply brace_free_not_open].
  - rewrite !andb_true_iff in Hsg. destruct Hsg as [[[H1 Hn] Hne] H2].
    apply negb_true_iff, bool_decide_eq_false in Hne.
    pose proof (match_placeholder_at ws1 name ws2 H1 Hn Hne H2 (render segs))
      as Hs.
    destruct (placeholder_shape ws1 name ws2 H1 Hn H2) as (b & body & Ep & _).
    rewrite Ep in Hs |- *.
    etrans; [exact (match_from_Some _ match_placeholder_braced _ _ _ _ Hs)|].
    f_equal. by apply IH.
Qed.

(** *** The check finds the placeholders of the text *)

Lemma is_token_match (tok rest : jsstring) :
  is_token tok -> match_placeholder (tok ++ rest) = Some (tok, rest).
Proof.
  intros (ws1 & name & ws2 & -> & H1 & Hn & Hne & H2).
  by apply match_placeholder_at.
Qed.

Lemma match_is_token (s matched rest : jsstring) :
  match_placeholder s = Some (matched, rest) ->
  is_token matched /\ s = matched ++ rest.
Proof.
  intros H. apply match_placeholder_inv in H
    as (ws1 & name & ws2 & -> & -> & H1 & Hn & Hne & H2).
  split; [|done]. by exists ws1, name, ws2.
Qed.

Lemma no_token_no_match (s : jsstring) :
  ~ starts_with_token s -> match_placeholder s = None.
Proof.
  intros H. destruct (match_placeholder s) as [[matched rest]|] eqn:E; [|done].
  apply match_is_token in E as [Htok ->]. exfalso. apply H.
  by exists matched, rest.
Qed.

Lemma is_token_cons (tok : jsstring) :
  is_token tok -> exists c t, tok = c :: t.
Proof. intros (ws1 & name & ws2 & -> & _). by eexists _, _. Qed.

(** The list the check builds is the list of the placeholders of the
    text. *)
Lemma occurrences_match_all (s : jsstring) :
  occurrences s (match_all match_placeholder s).
Proof.
  remember (length s) as n eqn:Hn. revert s Hn.
  induction n as [n IH] using lt_wf_ind. intros [|c s] Hn; [constructor|].
  unfold match_all.
  destruct (match_placeholder (c :: s)) as [[matched rest]|] eqn:E.
  - rewrite (match_from_Some _ match_placeholder_braced _ _ _ _ E).
    apply match_is_token in E as [Htok E].
    apply (occ_token _ matched rest); [done|done|].
    destruct (is_token_cons matched Htok) as (c' & t & ->).
    apply (IH (length rest)); [|done].
    rewrite Hn, E, length_app. simpl. lia.
  - cbn [match_from]. rewrite E. apply occ_char.
    + intros (tok & rest & Htok & Hs).
      rewrite Hs, (is_token_match tok rest Htok) in E. done.
    + apply (IH (length s)); [|done]. rewrite Hn. simpl. lia.
Qed.

(** A text has one list of placeholders. *)
Lemma occurrences_unique (s : jsstring) (toks : list jsstring) :
  occurrences s toks -> toks = match_all match_placeholder s.
Proof.
  unfold match_all.
  induction 1 as [|c s toks Hno _ IH|s tok rest toks -> Htok _ IH].
  - done.
  - cbn [match_from]. by rewrite (no_token_no_match _ Hno).
  - destruct (is_token_cons tok Htok) as (c & t & E).
    pose proof (is_token_match tok rest Htok) as Hm. rewrite E in Hm |- *.
    etrans; [|symmetry;
      exact (match_from_Some _ match_placeholder_braced _ _ _ _ Hm)].
    by rewrite IH.
Qed.

End ResolveFacts.

Module PromptFacts.
Import JS JSON Schema Value Template Tokens JSFacts ScanFacts TemplateFacts
  ResolveFacts PromptClass.

(** Property X1.  The effective bindings: a variable given for the call,
    or else pre-bound, overrides the default of the same name; a name
    without one keeps its default.  The variables of the call hide the
    pre-bound ones altogether, they are not merged. *)
Lemma allVars_precedence (e : PromptClass.t)
    (vars : option (Obj.object value)) (k : jsstring) :
  NoDup (Obj.keys (_defaults e)) ->
  NoDup (Obj.keys (default (default [] (_vars e)) vars)) ->
  Obj.get k (allVars e vars)
  = match Obj.get k (default (default [] (_vars e)) vars) with
    | Some v => Some v
    | None => Obj.get k (_defaults e)
    end.
Proof.
  intros Hd Hv. unfold allVars.
  replace (match vars with Some v => v | None => default [] (_vars e) end)
    with (default (default [] (_vars e)) vars) by by destruct vars.
  rewrite (ObjFacts.get_spread _ _ _ Hv), (ObjFacts.get_spread _ _ _ Hd).
  by destruct (Obj.get k (_defaults e)).
Qed.

(** Claim C1, as amended.  When the template contains a placeholder whose
    name has no effective binding (the names of the bindings being
    identifiers), [resolvePrompt] throws the missing-variables error.  Its
    message is the fixed text followed by the entries, joined by a comma and
    a space.  The entries are the placeholders of the text after
    substitution: each as it stands there, braces and inner white space
    included, in order of appearance, one entry for each occurrence, and no
    other list is; the placeholder without a binding is among them. *)
Theorem resolvePrompt_missing_binding (e : PromptClass.t)
    (vars : option (Obj.object value)) (pre ws1 name ws2 post : jsstring) :
  _text e = Some (pre ++ placeholder ws1 name ws2 ++ post) ->
  is_blank ws1 = true -> is_identifier name = true -> name <> [] ->
  is_blank ws2 = true ->
  identifier_keys (allVars e vars) = true ->
  Obj.has name (allVars e vars) = false ->
  exists tokens,
    resolvePrompt e vars
    = Throw (Error (str "Missing template variables or default values: "
                    ++ join (str ", ") tokens))
    /\ occurrences
         (substitute (allVars e vars)
            (pre ++ placeholder ws1 name ws2 ++ post))
         tokens
    /\ (forall others,
          occurrences
            (substitute (allVars e vars)
               (pre ++ placeholder ws1 name ws2 ++ post))
            others ->
          others = tokens)
    /\ placeholder ws1 name ws2 ∈ tokens.
Proof.
  intros Ht H1 Hn Hne H2 Hk Hfree.
  destruct (substitute_keeps_placeholder ws1 name ws2 H1 Hn Hne H2
              (allVars e vars) pre post Hk Hfree) as (pre' & post' & Hs).
  pose proof (match_all_finds_placeholder ws1 name ws2 H1 Hn Hne H2 pre' post')
    as Hin.
  rewrite <- Hs in Hin.
  exists (match_all match_placeholder
            (substitute (allVars e vars)
               (pre ++ placeholder ws1 name ws2 ++ post))).
  split_and!; [|apply occurrences_match_all|apply occurrences_unique|done].
  unfold resolvePrompt. rewrite Ht. cbv beta zeta. cbn [from_option id].
  destruct (match_all _ _) as [|tok toks]; [|done].
  by apply elem_of_nil in Hin.
Qed.

(** Claim C7, as amended.  For a template whose braces all belong to
    placeholders, and effective bindings whose names are identifiers, whose
    values have no brace and no dollar sign, and which cover every
    placeholder: the substitution replaces each placeholder by the text of
    its binding, no placeholder is left, and without a schema [resolvePrompt]
    returns that text. *)
Theorem resolvePrompt_covered (e : PromptClass.t)
    (vars : option (Obj.object value)) (segs : list segment) :
  _text e = Some (render segs) ->
  forallb wf_segment segs = true ->
  identifier_keys (allVars e vars) = true ->
  plain_values (allVars e vars) = true ->
  covers (allVars e vars) segs = true ->
  substitute (allVars e vars) (render segs)
  = instantiate (allVars e vars) segs
  /\ match_all match_placeholder (instantiate (allVars e vars) segs) = []
  /\ (_schema e = None ->
      resolvePrompt e vars = Return (instantiate (allVars e vars) segs))
  /\ (forall s description,
        _schema e = Some s -> describeSchema s = Some description ->
        resolvePrompt e vars
        = Return (instantiate (allVars e vars) segs
                  ++ directive (_format e) description)).
Proof.
  intros Ht Hwf Hk Hv Hc.
  pose proof (substitute_render _ _ Hwf Hk Hv) as Hs.
  pose proof (match_all_brace_free _ (instantiate_brace_free _ _ Hwf Hv Hc))
    as Hnone.
  split_and!; [done|done| |].
  - intros Hschema. unfold resolvePrompt.
    rewrite Ht. cbv beta zeta. cbn [from_option id].
    by rewrite Hs, Hnone, Hschema.
  - intros s description Hschema Hd. unfold resolvePrompt.
    rewrite Ht. cbv beta zeta. cbn [from_option id].
    by rewrite Hs, Hnone, Hschema, Hd.
Qed.

End PromptFacts.

Module EngineFacts.
Import JS JSON Schema Value Template PromptClass Examples.

(** The chain of the test leaves two engines: the one the setters worked on
    and the one [vars] derived from it. *)
Example books_run :
  books_prompt empty_world
  = (Return 1,
     {| heap := [set_vars None books_engine; books_engine]; calls := [] |}).
Proof. vm_compute. reflexivity. Qed.

(** Claim C2.  For an engine with the template
    ["List {{num}} books by {{name}}."], defaults [{num: 3}], pre-bound
    variables [{name: "George Orwell"}], the array-of-books schema and the
    default format label, [toString] returns the text the test expects:
    the sentence, the directive, and the skeleton indented by two spaces. *)
Theorem toString_books (w : world) (this : ref) (e : PromptClass.t) :
  heap w !! this = Some e ->
  _text e = Some books_template ->
  _defaults e = [(str "num", VNumber 3)] ->
  _vars e = Some [(str "name", VString (str "George Orwell"))] ->
  _schema e = Some books_schema ->
  _format e = str "json" ->
  toString this w = (Return books_text, w).
Proof.
  intros Hthis Ht Hd Hv Hs Hf.
  unfold toString, mbind, M_bind, read, lift. rewrite Hthis.
  f_equal. unfold resolvePrompt, allVars. rewrite Ht, Hd, Hv, Hs, Hf.
  vm_compute. reflexivity.
Qed.

(** Claim C2 at the engine the test builds. *)
Lemma toString_books_witness :
  toString 1 (books_prompt empty_world).2
  = (Return books_text, (books_prompt empty_world).2).
Proof.
  apply (toString_books (books_prompt empty_world).2 1 books_engine);
    vm_compute; reflexivity.
Defined.

End EngineFacts.

Module MethodFacts.
Import JS JSON Schema Value Template PromptClass Examples.

(** Unfold the monad in a goal. *)
Ltac run :=
  unfold PromptClass.vars, PromptClass.fromJSON, PromptClass.Prompt;
  unfold PromptClass.schema, PromptClass.text, PromptClass.defaults,
    PromptClass.using_, PromptClass.toJSON, PromptClass.toString,
    PromptClass.generate, PromptClass.new;
  unfold mbind, M_bind, mret, M_ret, read, write, lift, throw, alloc,
    await_execute;
  cbn [heap calls fst snd].

Section Methods.
Variable compile : Ajv.Compiler.
Variable JSON_parse : JSON.Decoder.

Lemma schema_compiles_Some (e : PromptClass.t) (s : JSONSchema) :
  schema_compiles compile e = true -> _schema e = Some s ->
  exists validator, compile s = Return validator.
Proof.
  unfold schema_compiles. intros H Hs. rewrite Hs in H.
  destruct (compile s); [eauto|done].
Qed.

(** The constructor leaves schema and validator in step. *)
Lemma new_in_sync (options : PromptOptions.t) (w w' : world) (r : ref) :
  new compile options w = (Return r, w') ->
  exists e, heap w' = heap w ++ [e] /\ r = length (heap w)
            /\ in_sync compile e /\ calls w' = calls w.
Proof.
  run. destruct (PromptOptions.schema options) as [s|] eqn:Hs.
  - destruct (compile s) as [validator|err] eqn:Hc; [|done].
    intros [= <- <-]. eexists. split_and!; try done.
    unfold in_sync. cbn. eauto.
  - intros [= <- <-]. eexists. split_and!; try done.
Qed.


Lemma in_sync_setters (e : PromptClass.t) :
  in_sync compile e ->
  (forall x, in_sync compile (set_text x e))
  /\ (forall x, in_sync compile (set_defaults x e))
  /\ (forall x, in_sync compile (set_generator x e))
  /\ (forall x, in_sync compile (set_vars x e)).
Proof. intros H. split_and!; intros x; exact H. Qed.

Lemma new_keeps_sync (options : PromptOptions.t) (w : world) :
  all_in_sync compile w -> all_in_sync compile (new compile options w).2.
Proof.
  intros Hw. destruct (new compile options w) as [[r|err] w'] eqn:E.
  - apply new_in_sync in E as (e & Hh & _ & He & _).
    unfold all_in_sync. cbn. rewrite Hh. apply Forall_app. split; [done|].
    by constructor.
  - revert E. run. destruct (PromptOptions.schema options) as [s|]; [|done].
    destruct (compile s); [done|]. by intros [= _ <-].
Qed.

Lemma setter_keeps_sync (f : PromptClass.t -> PromptClass.t) (this : ref)
    (w : world) :
  (forall e, in_sync compile e -> in_sync compile (f e)) ->
  all_in_sync compile w ->
  all_in_sync compile
    ((read this ≫= fun _ => write this f ≫= fun _ => mret this) w).2.
Proof.
  intros Hf Hw. run. destruct (heap w !! this); [|done].
  cbn. apply Forall_alter; [done|]. intros e _. apply Hf.
Qed.

Lemma schema_keeps_sync (this : ref) (s : JSONSchema) (w : world) :
  schema_call_compiles compile (CallSchema this s) = true ->
  all_in_sync compile w ->
  all_in_sync compile (schema compile this s w).2.
Proof.
  unfold schema_call_compiles. intros Hc Hw.
  destruct (compile s) as [validator|] eqn:Hs; [|done].
  run. destruct (heap w !! this) as [e|]; [|done]. rewrite Hs. cbn.
  rewrite list_alter_alter_eq. unfold all_in_sync. cbn.
  apply Forall_alter; [done|]. intros e' _ _.
  unfold in_sync. cbn. eauto.
Qed.

Lemma using_keeps_sync (this : ref) (g : Generator.t) (w : world) :
  all_in_sync compile w -> all_in_sync compile (using_ this g w).2.
Proof. apply setter_keeps_sync. intros e He. by apply in_sync_setters. Qed.

Lemma vars_keeps_sync (this : ref) (v : Obj.object value) (w : world) :
  all_in_sync compile w -> all_in_sync compile (vars compile this v w).2.
Proof.
  intros Hw. unfold PromptClass.vars, mbind, M_bind.
  destruct (toJSON this w) as [[options|err] w1] eqn:E1.
  - assert (w1 = w) as ->.
    { revert E1. run. by destruct (heap w !! this); intros [= _ <-]. }
    pose proof (new_keeps_sync options w Hw) as Hnew.
    destruct (new compile options w) as [[r|err] w2]; [|done].
    cbn in Hnew |- *. unfold write. cbn.
    apply Forall_alter; [done|]. intros e _ He. by apply in_sync_setters.
  - revert E1. run. by destruct (heap w !! this); intros [= _ <-].
Qed.

Lemma fromJSON_keeps_sync (data : PromptOptions.t) (g : Generator.t)
    (w : world) :
  all_in_sync compile w -> all_in_sync compile (fromJSON compile data g w).2.
Proof.
  intros Hw. unfold PromptClass.fromJSON, mbind, M_bind.
  pose proof (new_keeps_sync data w Hw) as Hnew.
  destruct (new compile data w) as [[r|err] w2]; [|done].
  by apply using_keeps_sync.
Qed.

Lemma generate_keeps_heap (this : ref) (v : option (Obj.object value))
    (w : world) :
  heap (generate JSON_parse this v w).2 = heap w.
Proof.
  run. destruct (heap w !! this) as [e|]; [|done].
  destruct (_generator e) as [g|]; [|done].
  destruct (resolvePrompt e v) as [prompt|]; [|done].
  destruct (Generator.execute g prompt) as [raw|]; [|done]. cbn.
  destruct (_schema e), (_validator e); try done.
  destruct (JSON_parse raw) as [data|]; [|done]. cbn.
  by destruct (validate _ data).
Qed.

(** Property X7.  The part of the invariant that the code keeps.  From a
    world where every engine has its schema and validator in step, any
    sequence of calls of the public interface that contains no [schema]
    call refused by the compiler leads to such a world. *)
Theorem calls_keep_sync (cs : list call) (w : world) :
  forallb (schema_call_compiles compile) cs = true ->
  all_in_sync compile w ->
  all_in_sync compile (perform_all compile JSON_parse cs w).
Proof.
  revert w. induction cs as [|c cs IH]; intros w Hcs Hw; [done|].
  simpl in Hcs. apply andb_true_iff in Hcs as [Hc Hcs].
  unfold perform_all. cbn [fold_left]. apply IH; [done|].
  destruct c; cbn [perform].
  - by apply new_keeps_sync.
  - apply setter_keeps_sync; [|done]. intros e He. by apply in_sync_setters.
  - apply setter_keeps_sync; [|done]. intros e He. by apply in_sync_setters.
  - by apply schema_keeps_sync.
  - by apply using_keeps_sync.
  - by apply vars_keeps_sync.
  - run. by destruct (heap w !! this).
  - run. by destruct (heap w !! this).
  - unfold all_in_sync. by rewrite generate_keeps_heap.
  - by apply fromJSON_keeps_sync.
Qed.

(** Claim C4, at the failing input.  [schema] assigns the new schema before
    it compiles it: when the compiler throws, the error propagates, and the
    engine is left with the new schema next to the validator it had, so
    schema and validator are no longer in step. *)
Theorem schema_failure_leaves_stale_validator (w : world) (this : ref)
    (e : PromptClass.t) (s : JSONSchema) (err : exn) :
  heap w !! this = Some e -> compile s = Throw err ->
  exists w', schema compile this s w = (Throw err, w')
    /\ heap w' !! this = Some (set_schema (Some s) e)
    /\ _schema (set_schema (Some s) e) = Some s
    /\ _validator (set_schema (Some s) e) = _validator e
    /\ ~ in_sync compile (set_schema (Some s) e)
    /\ ~ all_in_sync compile w'.
Proof.
  intros Hthis Hc. run. rewrite Hthis, Hc. eexists. split; [done|].
  assert (~ in_sync compile (set_schema (Some s) e)) as Hbad.
  { unfold in_sync. cbn. intros (validator & Hv & _). congruence. }
  assert (alter (set_schema (Some s)) this (heap w) !! this
          = Some (set_schema (Some s) e)) as Hlook
    by by rewrite list_lookup_alter_eq, Hthis.
  cbn [heap]. split_and!; try done.
  intros Hall. apply Hbad.
  exact (Forall_lookup_1 _ _ _ _ Hall Hlook).
Qed.


(** Claim C6, as amended.  For an engine whose schema compiles, [vars]
    returns a new engine with the template, the defaults and the schema of
    the original and with the given pre-bound variables; the new engine has
    no backend bound; the original engine is not changed. *)
Theorem vars_new_engine (w : world) (this : ref) (e : PromptClass.t)
    (v : Obj.object value) :
  heap w !! this = Some e -> schema_compiles compile e = true ->
  exists e',
    vars compile this v w
    = (Return (length (heap w)),
       {| heap := heap w ++ [e']; calls := calls w |})
    /\ _text e' = _text e /\ _defaults e' = _defaults e
    /\ _schema e' = _schema e /\ _vars e' = Some v
    /\ _generator e' = None
    /\ in_sync compile e'
    /\ resolvePrompt e' None = resolvePrompt e' (Some v)
    /\ (heap w ++ [e']) !! this = Some e.
Proof.
  intros Hthis Hc. run. rewrite Hthis. cbn.
  assert (forall (l : list PromptClass.t) x f,
             alter f (length l) (l ++ [x]) = l ++ [f x]) as Halter.
  { intros l x f. induction l as [|y l IH]; [done|]. cbn. by rewrite IH. }
  destruct (_schema e) as [s0|] eqn:Hs; cbn.
  - destruct (schema_compiles_Some e s0 Hc Hs) as [validator Hv].
    rewrite Hv. cbn. rewrite Halter. eexists. split; [done|].
    cbn. split_and!; try done.
    + unfold in_sync. cbn. eauto.
    + by apply lookup_app_l_Some.
  - rewrite Halter. eexists. split; [done|]. cbn. split_and!; try done.
    by apply lookup_app_l_Some.
Qed.

(** Claim C3, as amended.  For an engine whose format label is the default
    ["json"] and whose schema compiles: [toJSON] returns its template,
    defaults and schema as they are, and the engine [fromJSON] builds from
    that record, with any backend, resolves every variable mapping to the
    same result as the original. *)
Theorem toJSON_fromJSON_resolves_alike (w : world) (this : ref)
    (e : PromptClass.t) (g : Generator.t) (v : Obj.object value) :
  heap w !! this = Some e -> _format e = str "json" ->
  schema_compiles compile e = true ->
  exists data e',
    toJSON this w = (Return data, w)
    /\ PromptOptions.text data = _text e
    /\ PromptOptions.defaults data = Some (_defaults e)
    /\ PromptOptions.schema data = _schema e
    /\ fromJSON compile data g w
       = (Return (length (heap w)),
          {| heap := heap w ++ [e']; calls := calls w |})
    /\ _text e' = _text e /\ _defaults e' = _defaults e
    /\ _schema e' = _schema e /\ _generator e' = Some g
    /\ resolvePrompt e' (Some v) = resolvePrompt e (Some v).
Proof.
  intros Hthis Hf Hc.
  assert (forall (l : list PromptClass.t) x f,
             alter f (length l) (l ++ [x]) = l ++ [f x]) as Halter.
  { intros l x f. induction l as [|y l IH]; [done|]. cbn. by rewrite IH. }
  assert (forall (l : list PromptClass.t) x, (l ++ [x]) !! length l = Some x)
    as Hlast.
  { intros l x. induction l as [|y l IH]; [done|]. exact IH. }
  exists {| PromptOptions.text := _text e;
            PromptOptions.defaults := Some (_defaults e);
            PromptOptions.schema := _schema e;
            PromptOptions.generator := None;
            PromptOptions.format := None |}.
  run. rewrite Hthis. cbn.
  destruct (_schema e) as [s0|] eqn:Hs; cbn.
  - destruct (schema_compiles_Some e s0 Hc Hs) as [validator Hv].
    rewrite Hv. cbn. rewrite Hlast. cbn. rewrite Halter.
    eexists. split_and!; try done.
    unfold resolvePrompt, allVars. cbn. by rewrite Hs, Hf.
  - rewrite Hlast. cbn. rewrite Halter. eexists. split_and!; try done.
    unfold resolvePrompt, allVars. cbn. by rewrite Hs.
Qed.

(** Claim C8.  Without a backend [generate] throws the no-generator error
    at once: nothing is resolved, no backend is called, the world is as it
    was.  With a backend the check passes: [generate] fails only as the
    resolution fails, which is never that error, or else hands the resolved
    prompt to the backend; and when neither the backend nor the decoder
    produces that error, it does not occur. *)
Theorem generate_requires_generator (w : world) (this : ref)
    (e : PromptClass.t) (vars : option (Obj.object value)) :
  heap w !! this = Some e ->
  (_generator e = None ->
   generate JSON_parse this vars w = (Throw (Error no_generator_message), w))
  /\ (forall g, _generator e = Some g ->
        match resolvePrompt e vars with
        | Throw err =>
            generate JSON_parse this vars w = (Throw err, w)
            /\ err <> Error no_generator_message
        | Return prompt =>
            calls (generate JSON_parse this vars w).2 = calls w ++ [prompt]
            /\ ((forall p, Generator.execute g p
                           <> Throw (Error no_generator_message)) ->
                (forall raw, JSON_parse raw
                             <> Throw (Error no_generator_message)) ->
                (generate JSON_parse this vars w).1
                <> Throw (Error no_generator_message))
        end).
Proof.
  intros Hthis. split.
  - intros Hg. run. by rewrite Hthis, Hg.
  - intros g Hg. run. rewrite Hthis, Hg.
    destruct (resolvePrompt e vars) as [prompt|err] eqn:Hr.
    + destruct (Generator.execute g prompt) as [raw|err] eqn:He.
      * destruct (_schema e) as [s0|], (_validator e) as [validator|] eqn:Hv;
          cbn; try (split; [done|]; intros; done).
        destruct (JSON_parse raw) as [data|err] eqn:Hp; cbn.
        -- unfold validate. rewrite Hv.
           destruct (Ajv.valid (validator data)); cbn;
             (split; [done|]); intros; done.
        -- split; [done|]. intros _ Hparse [= ->]. by apply (Hparse raw).
      * cbn. split; [done|]. intros Hexec _ [= ->]. by apply (Hexec prompt).
    + split; [done|]. intros ->. unfold resolvePrompt in Hr.
      destruct (match_all _ _); [|done].
      destruct (_schema e); [|done]. by destruct (describeSchema _).
Qed.

(** Claim C9, as amended.  When the validator refuses the decoded answer,
    [generate] throws an error whose message is ["Invalid data: "] followed
    by the messages of the errors the validator reports, joined by [", "]:
    every error the validator reports, which need not be every constraint
    the answer violates. *)
Theorem generate_reports_validator_errors (w : world) (this : ref)
    (e : PromptClass.t) (g : Generator.t) (vars : option (Obj.object value))
    (prompt raw : jsstring) (data : json) (s : JSONSchema)
    (validator : Ajv.ValidateFunction) (errs : list Ajv.ErrorObject) :
  heap w !! this = Some e -> _generator e = Some g ->
  resolvePrompt e vars = Return prompt ->
  Generator.execute g prompt = Return raw ->
  _schema e = Some s -> _validator e = Some validator ->
  JSON_parse raw = Return data ->
  validator data = {| Ajv.valid := false; Ajv.errors := Some errs |} ->
  generate JSON_parse this vars w
  = (Throw (Error (str "Invalid data: "
                   ++ join (str ", ")
                        (map (fun err => default [] (Ajv.message err)) errs))),
     {| heap := heap w; calls := calls w ++ [prompt] |}).
Proof.
  intros Hthis Hg Hr He Hs Hv Hp Hinvalid. run.
  rewrite Hthis, Hg, Hr, He, Hs, Hv. cbn. rewrite Hp. cbn.
  unfold validate. by rewrite Hv, Hinvalid.
Qed.

End Methods.
End MethodFacts.

Module Instances.
Import JS JSON Schema Value Template Tokens PromptClass Examples PromptFacts
  MethodFacts.

(** The engines of the examples are what the constructor and the setters
    build. *)
Example book_engine_constructed (g : Generator.t) :
  new Ajv.compile (book_options g (Some (str "csv"))) empty_world
  = (Return 0, one_engine (book_engine g (str "csv")))
  /\ new Ajv.compile (book_options g None) empty_world
     = (Return 0, one_engine (book_engine g (str "json"))).
Proof. split; reflexivity. Qed.

Example plain_engine_constructed (template : jsstring)
    (bindings : Obj.object value) :
  (p ← Prompt Ajv.compile None; p ← text p template; defaults p bindings)
    empty_world
  = (Return 0, one_engine (plain_engine template bindings)).
Proof. reflexivity. Qed.

(** With a backend and an answer that fits the schema, [generate] hands the
    resolved prompt to the backend and returns the decoded answer. *)
Example generate_returns_validated_data :
  generate JSON.parse 0 None
    (one_engine (book_engine (constant_backend orwell_answer) (str "json")))
  = (Return (Data (JObject [(str "title", JString (str "1984"));
                            (str "year", JString (str "1949"))])),
     {| heap := [book_engine (constant_backend orwell_answer) (str "json")];
        calls := [str "Name a book." ++ book_directive "json"] |}).
Proof. vm_compute. reflexivity. Qed.

(** An answer that is no JSON text is a [SyntaxError], not a validation
    error. *)
Example generate_decode_failure :
  (generate JSON.parse 0 None
     (one_engine (book_engine (constant_backend (str "Sure!")) (str "json")))).1
  = Throw (SyntaxError (str "Unexpected token in JSON")).
Proof. vm_compute. reflexivity. Qed.

(** Claim C1 fails as stated: a placeholder that occurs twice is listed
    twice, and the entries are the placeholders with their braces, not the
    names. *)
Lemma missing_binding_repeats :
  resolvePrompt (plain_engine (str "{{a}} and {{a}}") []) None
  = Throw (Error (str "Missing template variables or default values: {{a}}, {{a}}"))
  /\ match_all match_placeholder (str "{{a}} and {{a}}")
     = [str "{{a}}"; str "{{a}}"].
Proof. split; vm_compute; reflexivity. Qed.

(** Claim C1, as amended, at a template with a placeholder that has a
    binding, one that has none and occurs twice, with and without inner
    white space, and another one without a binding: the message lists the
    three that are left, in their order. *)
Lemma resolvePrompt_missing_binding_witness :
  (exists tokens,
      resolvePrompt
        (plain_engine (str "{{greet}} {{ name }}, {{other}} and {{name}}")
           [(str "greet", VString (str "Hi"))])
        None
      = Throw (Error (str "Missing template variables or default values: "
                      ++ join (str ", ") tokens))
      /\ occurrences
           (substitute
              (allVars
                 (plain_engine
                    (str "{{greet}} {{ name }}, {{other}} and {{name}}")
                    [(str "greet", VString (str "Hi"))])
                 None)
              (str "{{greet}} " ++ placeholder (str " ") (str "name") (str " ")
               ++ str ", {{other}} and {{name}}"))
           tokens
      /\ (forall others,
            occurrences
              (substitute
                 (allVars
                    (plain_engine
                       (str "{{greet}} {{ name }}, {{other}} and {{name}}")
                       [(str "greet", VString (str "Hi"))])
                    None)
                 (str "{{greet}} "
                  ++ placeholder (str " ") (str "name") (str " ")
                  ++ str ", {{other}} and {{name}}"))
              others ->
            others = tokens)
      /\ placeholder (str " ") (str "name") (str " ") ∈ tokens)
  /\ resolvePrompt
       (plain_engine (str "{{greet}} {{ name }}, {{other}} and {{name}}")
          [(str "greet", VString (str "Hi"))])
       None
     = Throw (Error (str "Missing template variables or default values: {{ name }}, {{other}}, {{name}}")).
Proof.
  split; [|vm_compute; reflexivity].
  apply (resolvePrompt_missing_binding
           (plain_engine (str "{{greet}} {{ name }}, {{other}} and {{name}}")
              [(str "greet", VString (str "Hi"))])
           None
           (str "{{greet}} ") (str " ") (str "name") (str " ")
           (str ", {{other}} and {{name}}"));
    vm_compute; solve [reflexivity | discriminate].
Defined.

(** Claim C7 fails as stated: the only placeholder of the template has a
    binding, and the value of that binding brings in a placeholder that has
    none. *)
Lemma covered_placeholder_still_missing :
  resolvePrompt
    (plain_engine (str "{{a}}") [(str "a", VString (str "{{b}}"))]) None
  = Throw (Error (str "Missing template variables or default values: {{b}}"))
  /\ match_all match_placeholder (str "{{a}}") = [str "{{a}}"]
  /\ Obj.has (str "a")
       (allVars (plain_engine (str "{{a}}") [(str "a", VString (str "{{b}}"))])
          None) = true.
Proof. split_and!; vm_compute; reflexivity. Qed.

(** Braces of the template around a placeholder make a placeholder of a
    plain value: this is why the template is asked to keep its braces to
    its placeholders. *)
Example braces_around_a_placeholder :
  match_all match_placeholder (str "{{{{a}}}}") = [str "{{a}}"]
  /\ resolvePrompt
       (plain_engine (str "{{{{a}}}}") [(str "a", VString (str "x"))]) None
     = Throw (Error (str "Missing template variables or default values: {{x}}")).
Proof. split; vm_compute; reflexivity. Qed.

(** Claim C7, as amended, at the books template. *)
Lemma resolvePrompt_covered_witness :
  substitute (allVars (plain_engine books_template books_bindings) None)
    (render books_segments)
  = instantiate (allVars (plain_engine books_template books_bindings) None)
      books_segments
  /\ match_all match_placeholder
       (instantiate (allVars (plain_engine books_template books_bindings) None)
          books_segments) = []
  /\ (_schema (plain_engine books_template books_bindings) = None ->
      resolvePrompt (plain_engine books_template books_bindings) None
      = Return
          (instantiate
             (allVars (plain_engine books_template books_bindings) None)
             books_segments))
  /\ (forall s description,
        _schema (plain_engine books_template books_bindings) = Some s ->
        describeSchema s = Some description ->
        resolvePrompt (plain_engine books_template books_bindings) None
        = Return
            (instantiate
               (allVars (plain_engine books_template books_bindings) None)
               books_segments
             ++ directive (_format (plain_engine books_template books_bindings))
                  description)).
Proof.
  apply (resolvePrompt_covered (plain_engine books_template books_bindings)
           None books_segments); vm_compute; reflexivity.
Defined.

(** Claim C10.  The bindings are applied one after the other, each by a
    global replacement.  A value is a replacement pattern: for the value
    ["$&"] the result is the placeholder itself, not the value.  A
    placeholder inside a value is filled by a later binding, or, when no
    binding follows for it, raises the missing-variables error although the
    placeholder of the template had a binding. *)
Theorem values_are_not_inserted_verbatim :
  (forall k v bindings template,
      substitute ((k, v) :: bindings) template
      = substitute bindings (replace (match_key k) (ToString v) template))
  /\ (replace (match_key (str "a")) (str "$&") (str "{{a}}") = str "{{a}}"
      /\ str "{{a}}" <> str "$&")
  /\ resolvePrompt
       (plain_engine (str "Dear {{who}},")
          [(str "who", VString (str "{{title}} Smith"));
           (str "title", VString (str "Dr"))]) None
     = Return (str "Dear Dr Smith,")
  /\ resolvePrompt
       (plain_engine (str "Dear {{who}},")
          [(str "who", VString (str "{{title}} Smith"))]) None
     = Throw (Error (str "Missing template variables or default values: {{title}}")).
Proof. split_and!; try done; vm_compute; reflexivity. Qed.

(** Claim C3 fails as stated: [toJSON] does not keep the format label, so
    an engine made with the label ["csv"] and the engine rebuilt from its
    record resolve to different texts. *)
Lemma round_trip_changes_format :
  (round_trip (book_options (constant_backend (str "{}")) (Some (str "csv")))
     (constant_backend (str "{}")) [] empty_world).1
  = Return (Return (str "Name a book." ++ book_directive "csv"),
            Return (str "Name a book." ++ book_directive "json"))
  /\ str "Name a book." ++ book_directive "csv"
     <> str "Name a book." ++ book_directive "json".
Proof. split; [vm_compute; reflexivity|]. vm_compute. discriminate. Qed.

(** Claim C3, as amended, at the books engine. *)
Lemma toJSON_fromJSON_resolves_alike_witness :
  exists data e',
    toJSON 0 (one_engine books_engine) = (Return data, one_engine books_engine)
    /\ PromptOptions.text data = _text books_engine
    /\ PromptOptions.defaults data = Some (_defaults books_engine)
    /\ PromptOptions.schema data = _schema books_engine
    /\ fromJSON Ajv.compile data (constant_backend (str "[]"))
         (one_engine books_engine)
       = (Return (length (heap (one_engine books_engine))),
          {| heap := heap (one_engine books_engine) ++ [e'];
             calls := calls (one_engine books_engine) |})
    /\ _text e' = _text books_engine /\ _defaults e' = _defaults books_engine
    /\ _schema e' = _schema books_engine
    /\ _generator e' = Some (constant_backend (str "[]"))
    /\ resolvePrompt e' (Some books_bindings)
       = resolvePrompt books_engine (Some books_bindings).
Proof.
  apply (toJSON_fromJSON_resolves_alike Ajv.compile (one_engine books_engine)
           0 books_engine (constant_backend (str "[]")) books_bindings);
    vm_compute; reflexivity.
Defined.

(** Claim C4 at an engine for one book, given a schema whose [required]
    names a property twice. *)
Lemma schema_failure_leaves_stale_validator_witness :
  exists w',
    schema Ajv.compile 0 twice_required_schema
      (one_engine (book_engine (constant_backend (str "{}")) (str "json")))
    = (Throw (Error (str "schema is invalid")), w')
    /\ heap w' !! 0
       = Some (set_schema (Some twice_required_schema)
                 (book_engine (constant_backend (str "{}")) (str "json")))
    /\ _schema (set_schema (Some twice_required_schema)
                  (book_engine (constant_backend (str "{}")) (str "json")))
       = Some twice_required_schema
    /\ _validator (set_schema (Some twice_required_schema)
                     (book_engine (constant_backend (str "{}")) (str "json")))
       = _validator (book_engine (constant_backend (str "{}")) (str "json"))
    /\ ~ in_sync Ajv.compile
           (set_schema (Some twice_required_schema)
              (book_engine (constant_backend (str "{}")) (str "json")))
    /\ ~ all_in_sync Ajv.compile w'.
Proof.
  apply (schema_failure_leaves_stale_validator Ajv.compile
           (one_engine (book_engine (constant_backend (str "{}")) (str "json")))
           0 (book_engine (constant_backend (str "{}")) (str "json"))
           twice_required_schema (Error (str "schema is invalid")));
    vm_compute; reflexivity.
Defined.



(** Claim C6 fails as stated: the engine has a backend, the engine [vars]
    derives from it has none, and [generate] on the derived engine throws
    the no-generator error. *)
Lemma vars_drops_generator :
  _generator
  <$> heap (one_engine (book_engine (constant_backend (str "{}")) (str "json")))
      !! 0
  = Some (Some (constant_backend (str "{}")))
  /\ _generator
     <$> heap (vars Ajv.compile 0 []
                 (one_engine
                    (book_engine (constant_backend (str "{}")) (str "json")))).2
         !! 1
     = Some None
  /\ ((vars Ajv.compile 0 [] ≫= fun derived => generate JSON.parse derived None)
        (one_engine (book_engine (constant_backend (str "{}")) (str "json")))).1
     = Throw (Error no_generator_message).
Proof. split_and!; vm_compute; reflexivity. Qed.

(** Claim C6, as amended, at an engine bound to a backend. *)
Lemma vars_new_engine_witness :
  exists e',
    vars Ajv.compile 0 books_bindings
      (one_engine (book_engine (constant_backend (str "{}")) (str "json")))
    = (Return
         (length
            (heap (one_engine
                     (book_engine (constant_backend (str "{}")) (str "json"))))),
       {| heap :=
            heap (one_engine
                    (book_engine (constant_backend (str "{}")) (str "json")))
            ++ [e'];
          calls :=
            calls (one_engine
                     (book_engine (constant_backend (str "{}")) (str "json"))) |})
    /\ _text e'
       = _text (book_engine (constant_backend (str "{}")) (str "json"))
    /\ _defaults e'
       = _defaults (book_engine (constant_backend (str "{}")) (str "json"))
    /\ _schema e'
       = _schema (book_engine (constant_backend (str "{}")) (str "json"))
    /\ _vars e' = Some books_bindings
    /\ _generator e' = None
    /\ in_sync Ajv.compile e'
    /\ resolvePrompt e' None = resolvePrompt e' (Some books_bindings)
    /\ (heap (one_engine
                (book_engine (constant_backend (str "{}")) (str "json")))
        ++ [e']) !! 0
       = Some (book_engine (constant_backend (str "{}")) (str "json")).
Proof.
  apply (vars_new_engine Ajv.compile
           (one_engine (book_engine (constant_backend (str "{}")) (str "json")))
           0 (book_engine (constant_backend (str "{}")) (str "json"))
           books_bindings); vm_compute; reflexivity.
Defined.

(** Claim C8 at an engine without a backend whose template has a
    placeholder without a binding: the error is the no-generator one. *)
Lemma generate_requires_generator_witness :
  (_generator (plain_engine (str "Hello, {{value}}.") []) = None ->
   generate JSON.parse 0 None
     (one_engine (plain_engine (str "Hello, {{value}}.") []))
   = (Throw (Error no_generator_message),
      one_engine (plain_engine (str "Hello, {{value}}.") [])))
  /\ (forall g,
        _generator (plain_engine (str "Hello, {{value}}.") []) = Some g ->
        match resolvePrompt (plain_engine (str "Hello, {{value}}.") []) None with
        | Throw err =>
            generate JSON.parse 0 None
              (one_engine (plain_engine (str "Hello, {{value}}.") []))
            = (Throw err, one_engine (plain_engine (str "Hello, {{value}}.") []))
            /\ err <> Error no_generator_message
        | Return prompt =>
            calls (generate JSON.parse 0 None
                     (one_engine (plain_engine (str "Hello, {{value}}.") []))).2
            = calls (one_engine (plain_engine (str "Hello, {{value}}.") []))
              ++ [prompt]
            /\ ((forall p, Generator.execute g p
                           <> Throw (Error no_generator_message)) ->
                (forall raw, JSON.parse raw
                             <> Throw (Error no_generator_message)) ->
                (generate JSON.parse 0 None
                   (one_engine (plain_engine (str "Hello, {{value}}.") []))).1
                <> Throw (Error no_generator_message))
        end).
Proof.
  apply (generate_requires_generator JSON.parse
           (one_engine (plain_engine (str "Hello, {{value}}.") [])) 0
           (plain_engine (str "Hello, {{value}}.") []) None).
  vm_compute. reflexivity.
Defined.

(** Claim C9 fails as stated: the answer [{}] violates two constraints of
    the book schema, and the message names the first one only. *)
Lemma generate_reports_first_error_only :
  generate JSON.parse 0 None
    (one_engine (book_engine (constant_backend (str "{}")) (str "json")))
  = (Throw (Error (str "Invalid data: must have required property 'title'")),
     {| heap := [book_engine (constant_backend (str "{}")) (str "json")];
        calls := [str "Name a book." ++ book_directive "json"] |})
  /\ JSON.parse (str "{}") = Return (JObject [])
  /\ map Ajv.message (Ajv.violations book_schema (JObject []))
     = [Some (str "must have required property 'title'");
        Some (str "must have required property 'year'")].
Proof. split_and!; vm_compute; reflexivity. Qed.

(** Claim C9, as amended, at the same engine and answer. *)
Lemma generate_reports_validator_errors_witness :
  generate JSON.parse 0 None
    (one_engine (book_engine (constant_backend (str "{}")) (str "json")))
  = (Throw (Error (str "Invalid data: "
                   ++ join (str ", ")
                        (map (fun err => default [] (Ajv.message err))
                           [Ajv.required_error (str "title")]))),
     {| heap :=
          heap (one_engine
                  (book_engine (constant_backend (str "{}")) (str "json")));
        calls :=
          calls (one_engine
                   (book_engine (constant_backend (str "{}")) (str "json")))
          ++ [str "Name a book." ++ book_directive "json"] |}).
Proof.
  apply (generate_reports_validator_errors JSON.parse
           (one_engine (book_engine (constant_backend (str "{}")) (str "json")))
           0 (book_engine (constant_backend (str "{}")) (str "json"))
           (constant_backend (str "{}")) None
           (str "Name a book." ++ book_directive "json") (str "{}")
           (JObject []) book_schema (Ajv.validator book_schema)
           [Ajv.required_error (str "title")]);
    vm_compute; reflexivity.
Defined.

End Instances.

(** ** The text a backend returns *)

Module OpenAIFacts.
Import JS JSON OpenAI.

(** What [trim_start] leaves does not start with white space. *)
Lemma trim_start_clean (s : jsstring) : starts_clean (trim_start s) = true.
Proof.
  induction s as [|c s IH]; [done|]. simpl.
  destruct (is_space c) eqn:E; [done|]. simpl. by rewrite E.
Qed.

(** What [trim_start] removes is white space. *)
Lemma trim_start_split (s : jsstring) :
  exists a, s = a ++ trim_start s /\ forallb is_space a = true.
Proof.
  induction s as [|c s (a & IH & Ha)]; [by exists []|]. simpl.
  destruct (is_space c) eqn:E.
  - exists (c :: a). simpl. rewrite E, Ha. split; [by f_equal|done].
  - by exists [].
Qed.

Lemma trim_start_fixed (s : jsstring) :
  starts_clean s = true -> trim_start s = s.
Proof.
  destruct s as [|c s]; [done|]. simpl. by destruct (is_space c).
Qed.

Lemma forallb_rev (p : ascii -> bool) (s : jsstring) :
  forallb p (rev s) = forallb p s.
Proof.
  induction s as [|c s IH]; [done|]. simpl.
  rewrite forallb_app, IH. simpl. rewrite andb_true_r. apply andb_comm.
Qed.

(** [trim] takes white space off both ends and nothing else, and what it
    leaves is trimmed. *)
Lemma trim_spec (s : jsstring) :
  exists a b,
    s = a ++ trim s ++ b
    /\ forallb is_space a = true /\ forallb is_space b = true
    /\ trimmed (trim s) = true.
Proof.
  unfold trim.
  destruct (trim_start_split s) as (a & Ha & Hsa).
  destruct (trim_start_split (rev (trim_start s))) as (b & Hb & Hsb).
  exists a, (rev b). split_and!.
  - rewrite <- rev_app_distr, <- Hb, rev_involutive. exact Ha.
  - done.
  - by rewrite forallb_rev.
  - unfold trimmed. rewrite rev_involutive, trim_start_clean, andb_true_r.
    set (t := trim_start s) in *.
    assert (starts_clean t = true) as Ht by apply trim_start_clean.
    assert (t = rev (trim_start (rev t)) ++ rev b) as Et.
    { rewrite <- rev_app_distr, <- Hb. by rewrite rev_involutive. }
    destruct (rev (trim_start (rev t))) as [|c r] eqn:E; [done|].
    rewrite Et in Ht. exact Ht.
Qed.

Lemma trim_fixed (s : jsstring) : trimmed s = true -> trim s = s.
Proof.
  unfold trimmed, trim. intros [H1 H2]%andb_true_iff.
  by rewrite (trim_start_fixed s H1), (trim_start_fixed _ H2), rev_involutive.
Qed.

End OpenAIFacts.

(** ** Bindings and the names a template uses *)

Module UsedFacts.
Import JS JSON Schema Value Template JSFacts ScanFacts TemplateFacts ResolveFacts PromptClass.

Lemma uses_cons_hole (ws1 name ws2 k : jsstring) (segs : list segment) :
  uses (Hole ws1 name ws2 :: segs) k = text_eqb name k || uses segs k.
Proof. done. Qed.

Lemma uses_cons_lit (s k : jsstring) (segs : list segment) :
  uses (Lit s :: segs) k = uses segs k.
Proof. done. Qed.

(** A replacement for a key copies the segments it does not fill, whatever
    the value is; the value has to be plain only where a hole is filled. *)
Lemma replace_from_render_used (k v : jsstring) (segs : list segment)
    (before : jsstring) :
  is_identifier k = true ->
  forallb wf_segment segs = true ->
  negb (uses segs k) || is_plain v = true ->
  replace_from (match_key k) v before 0 (render segs)
  = render (map (fill k v) segs).
Proof.
  intros Hk. pose proof (match_key_braced k Hk) as Hm.
  revert before. induction segs as [|sg segs IH]; intros before Hwf Hv; [done|].
  simpl in Hwf. apply andb_true_iff in Hwf as [Hsg Hwf].
  change (render (sg :: segs)) with (render_segment sg ++ render segs).
  change (render (map (fill k v) (sg :: segs)))
    with (render_segment (fill k v sg) ++ render (map (fill k v) segs)).
  destruct sg as [s|ws1 name ws2]; cbn [render_segment fill wf_segment] in *.
  - rewrite uses_cons_lit in Hv.
    rewrite (replace_from_literal _ Hm); [|by apply brace_free_not_open].
    by rewrite IH.
  - rewrite uses_cons_hole in Hv.
    rewrite !andb_true_iff in Hsg. destruct Hsg as [[[H1 Hn] Hne] H2].
    apply negb_true_iff, bool_decide_eq_false in Hne.
    destruct (text_eqb name k) eqn:E; cbn [render_segment].
    + simpl in Hv. apply text_eqb_true in E as ->.
      pose proof (match_key_at_same ws1 k ws2 H1 Hn Hne H2 (render segs)) as Hs.
      destruct (placeholder_shape ws1 k ws2 H1 Hn H2) as (b & body & Ep & _).
      rewrite Ep in Hs |- *.
      etrans; [exact (replace_from_Some _ Hm _ _ _ _ _ _ Hs)|].
      rewrite plain_GetSubstitution by done. rewrite IH; [done|done|].
      by rewrite Hv, orb_true_r.
    + assert (k <> name) as Hneq.
      { intros ->. by rewrite text_eqb_refl in E. }
      pose proof (match_key_at_other ws1 name ws2 H1 Hn Hne H2 k (render segs)
                    Hk Hneq) as Hnone.
      destruct (placeholder_shape ws1 name ws2 H1 Hn H2) as (b & body & Ep & HF).
      rewrite Ep in Hnone |- *.
      destruct (replace_from_unmatched _ Hm v b body (render segs) before HF Hnone)
        as (before' & Hcopy).
      etrans; [exact Hcopy|]. by rewrite IH.
Qed.

Lemma fill_wf_used (k v : jsstring) (segs : list segment) :
  negb (uses segs k) || is_plain v = true ->
  forallb wf_segment segs = true ->
  forallb wf_segment (map (fill k v) segs) = true.
Proof.
  induction segs as [|sg segs IH]; [done|]. simpl.
  intros Hv [Hsg Hwf]%andb_true_iff. apply andb_true_iff.
  destruct sg as [s|ws1 name ws2]; simpl in *.
  - split; [done|]. by apply IH.
  - rewrite uses_cons_hole in Hv. destruct (text_eqb name k) eqn:E; simpl in *.
    + split; [by apply plain_brace_free|]. apply IH; [|done].
      by rewrite Hv, orb_true_r.
    + split; [done|]. by apply IH.
Qed.

(** Filling holes adds no name to the template. *)
Lemma uses_fill (k v k' : jsstring) (segs : list segment) :
  uses (map (fill k v) segs) k' = true -> uses segs k' = true.
Proof.
  induction segs as [|sg segs IH]; [done|].
  destruct sg as [s|ws1 name ws2]; cbn [map fill].
  - rewrite !uses_cons_lit. exact IH.
  - destruct (text_eqb name k).
    + rewrite uses_cons_lit, uses_cons_hole. intros H. by rewrite (IH H), orb_true_r.
    + rewrite !uses_cons_hole. intros [->|H]%orb_true_iff; [done|].
      by rewrite (IH H), orb_true_r.
Qed.

Lemma plain_where_used_fill (k v : jsstring) (segs : list segment)
    (bindings : Obj.object value) :
  plain_where_used segs bindings = true ->
  plain_where_used (map (fill k v) segs) bindings = true.
Proof.
  unfold plain_where_used. rewrite !forallb_forall. intros H kv Hin.
  specialize (H kv Hin). apply orb_true_iff in H as [H|H].
  - apply orb_true_iff. left. apply negb_true_iff in H. apply negb_true_iff.
    destruct (uses (map (fill k v) segs) kv.1) eqn:E; [|done].
    apply uses_fill in E. congruence.
  - by rewrite H, orb_true_r.
Qed.

(** The loop of [resolvePrompt] fills the holes of such a template, the
    values of the names that do not occur being whatever they are. *)
Lemma substitute_render_used (bindings : Obj.object value)
    (segs : list segment) :
  forallb wf_segment segs = true ->
  identifier_keys bindings = true ->
  plain_where_used segs bindings = true ->
  substitute bindings (render segs) = instantiate bindings segs.
Proof.
  revert segs. induction bindings as [|[k v] bs IH]; intros segs Hwf Hk Hv.
  - done.
  - unfold identifier_keys in Hk. simpl in Hk.
    apply andb_true_iff in Hk as [Hk Hks].
    unfold plain_where_used in Hv. simpl in Hv.
    apply andb_true_iff in Hv as [Hv Hvs].
    rewrite instantiate_cons. unfold substitute. cbn [fold_left fst snd].
    unfold replace. rewrite replace_from_render_used by done.
    apply IH; [by apply fill_wf_used|done|by apply plain_where_used_fill].
Qed.

(** The text of an instantiated template is made of the values of the names
    that occur in it. *)
Lemma instantiate_ext (b1 b2 : Obj.object value) (segs : list segment) :
  (forall name, uses segs name = true -> Obj.get name b1 = Obj.get name b2) ->
  instantiate b1 segs = instantiate b2 segs.
Proof.
  unfold instantiate. induction segs as [|sg segs IH]; intros H; [done|].
  cbn [flat_map]. rewrite IH.
  - f_equal. destruct sg as [s|ws1 name ws2]; [done|].
    rewrite (H name); [done|]. rewrite uses_cons_hole.
    by rewrite text_eqb_refl.
  - intros name Hn. apply H. destruct sg; [done|].
    rewrite uses_cons_hole. by rewrite Hn, orb_true_r.
Qed.

End UsedFacts.

Module BindingFacts.
Import JS JSON Schema Value Template JSFacts ScanFacts TemplateFacts ResolveFacts UsedFacts PromptClass.

Lemma agree_on_get (segs : list segment) (b1 b2 : Obj.object value)
    (name : jsstring) :
  agree_on segs b1 b2 = true -> uses segs name = true ->
  Obj.get name b1 = Obj.get name b2.
Proof.
  unfold agree_on, uses. rewrite forallb_forall. intros H Hu.
  apply existsb_exists in Hu as (n & Hin & ->%text_eqb_true).
  exact (bool_decide_eq_true_1 _ (H _ Hin)).
Qed.

(** Property X2.  On a template whose braces all belong to its
    placeholders, the substitution loop of [resolvePrompt] writes, for every
    placeholder, the text of the binding of its name, and leaves a
    placeholder without a binding as it stands.  The names of the bindings
    are identifiers; a value has to be free of braces and dollar signs only
    when its name occurs in the template. *)
Theorem substitute_fills_used_holes (bindings : Obj.object value)
    (segs : list segment) :
  forallb wf_segment segs = true ->
  identifier_keys bindings = true ->
  plain_where_used segs bindings = true ->
  substitute bindings (render segs) = instantiate bindings segs.
Proof. apply substitute_render_used. Qed.

(** Property X4.  Two engines with the same template, schema and format
    label, where the braces of the template all belong to its placeholders,
    the names of the effective bindings on either side are identifiers, and
    the values bound to names that occur in the template are free of braces
    and dollar signs: when the two sets of effective bindings give every
    name that occurs in the template the same value, or none on both sides,
    [resolvePrompt] returns the same text or throws the same error for
    both, whatever else is bound. *)
Theorem resolvePrompt_depends_on_used_bindings (e1 e2 : PromptClass.t)
    (v1 v2 : option (Obj.object value)) (segs : list segment) :
  _text e1 = Some (render segs) -> _text e2 = Some (render segs) ->
  _schema e1 = _schema e2 -> _format e1 = _format e2 ->
  forallb wf_segment segs = true ->
  identifier_keys (allVars e1 v1) = true ->
  identifier_keys (allVars e2 v2) = true ->
  plain_where_used segs (allVars e1 v1) = true ->
  plain_where_used segs (allVars e2 v2) = true ->
  agree_on segs (allVars e1 v1) (allVars e2 v2) = true ->
  resolvePrompt e1 v1 = resolvePrompt e2 v2.
Proof.
  intros Ht1 Ht2 Hs Hf Hwf Hk1 Hk2 Hp1 Hp2 Hagree.
  unfold resolvePrompt. rewrite Ht1, Ht2, Hs, Hf. cbv beta zeta.
  cbn [from_option id].
  rewrite !substitute_render_used by done.
  rewrite (instantiate_ext (allVars e1 v1) (allVars e2 v2)); [done|].
  intros name. by apply agree_on_get.
Qed.

Lemma get_app (a b : Obj.object value) (name : jsstring) :
  Obj.get name (a ++ b)
  = match Obj.get name a with Some x => Some x | None => Obj.get name b end.
Proof.
  induction a as [|[k v] a IH]; [done|]. simpl.
  by destruct (text_eqb k name).
Qed.

Lemma plain_where_used_app (segs : list segment) (a b : Obj.object value) :
  plain_where_used segs (a ++ b)
  = plain_where_used segs a && plain_where_used segs b.
Proof. unfold plain_where_used. apply forallb_app. Qed.

(** Property X3.  On a template whose braces all belong to its
    placeholders, with bindings whose names are identifiers and whose
    values, for the names that occur in the template, are free of braces and
    dollar signs: a binding whose name does not occur in the template
    changes nothing in the text after substitution, whatever its own value
    (a replacement pattern, a placeholder) and wherever it stands among the
    bindings. *)
Theorem substitute_ignores_unused_binding (b1 b2 : Obj.object value)
    (k : jsstring) (v : value) (segs : list segment) :
  forallb wf_segment segs = true ->
  identifier_keys (b1 ++ (k, v) :: b2) = true ->
  plain_where_used segs (b1 ++ b2) = true ->
  uses segs k = false ->
  substitute (b1 ++ (k, v) :: b2) (render segs)
  = substitute (b1 ++ b2) (render segs).
Proof.
  intros Hwf Hk Hp Hu.
  rewrite plain_where_used_app in Hp. apply andb_true_iff in Hp as [Hp1 Hp2].
  unfold identifier_keys, Obj.keys in Hk. rewrite map_app, forallb_app in Hk.
  simpl in Hk. rewrite !andb_true_iff in Hk. destruct Hk as (Hk1 & Hk & Hk2).
  assert (identifier_keys (b1 ++ b2) = true) as Hk12.
  { unfold identifier_keys, Obj.keys. rewrite map_app, forallb_app.
    by rewrite Hk1, Hk2. }
  assert (identifier_keys (b1 ++ (k, v) :: b2) = true) as Hk1k2.
  { unfold identifier_keys, Obj.keys. rewrite map_app, forallb_app. simpl.
    by rewrite Hk1, Hk, Hk2. }
  assert (plain_where_used segs (b1 ++ b2) = true) as Hp12.
  { rewrite plain_where_used_app. by rewrite Hp1, Hp2. }
  assert (plain_where_used segs (b1 ++ (k, v) :: b2) = true) as Hp1k2.
  { rewrite plain_where_used_app, Hp1. unfold plain_where_used in Hp2 |- *.
    simpl. by rewrite Hu, Hp2. }
  rewrite (substitute_render_used _ _ Hwf Hk1k2 Hp1k2).
  rewrite (substitute_render_used _ _ Hwf Hk12 Hp12).
  apply instantiate_ext. intros name Hn. rewrite !get_app. cbn [Obj.get].
  destruct (text_eqb k name) eqn:E; [|done].
  apply text_eqb_true in E as ->. congruence.
Qed.

End BindingFacts.

(** ** The description of a schema *)

Module SchemaFacts.
Import JS JSON Schema SchemaShape JSFacts.

(** Induction on a schema, with the property at hand for the schemas of its
    properties and of its items. *)
Lemma JSONSchema_nested_ind (P : JSONSchema -> Prop) :
  (forall t ps it req,
      Forall (fun kv : jsstring * JSONSchema => P kv.2) ps ->
      (forall i, it = Some i -> P i) ->
      P (mkSchema t ps it req)) ->
  forall s, P s.
Proof.
  intros H. fix IH 1. intros [t ps it req]. apply H.
  - revert ps. fix go 1. intros [|[k sub] ps].
    + constructor.
    + constructor; [apply IH|apply go].
  - destruct it as [i|]; intros j Hj; [|discriminate].
    injection Hj as <-. apply IH.
Qed.

(** [describeSchema] by the cases of its [switch]. *)
Lemma describeSchema_unfold (t : jsstring) (ps : list (jsstring * JSONSchema))
    (it : option JSONSchema) (req : list jsstring) :
  describeSchema (mkSchema t ps it req)
  = if text_eqb t (str "object") then
      JObject <$> describe_properties ps []
    else if text_eqb t (str "array") then
      match it with
      | Some i =>
          if text_eqb (Schema.type i) (str "object")
          then (fun d => JArray [d]) <$> describeSchema i
          else Some (JArray [JString (Schema.type i)])
      | None => None
      end
    else Some (JString t).
Proof.
  cbn [describeSchema]. destruct (text_eqb t (str "object")); [reflexivity|].
  destruct (text_eqb t (str "array")); [|done].
  destruct it as [[it_t ? ? ?]|]; [|done]. cbn [Schema.type].
  destruct (text_eqb it_t (str "object")); reflexivity.
Qed.

Lemma describe_properties_Some (ps : list (jsstring * JSONSchema))
    (acc : Obj.object json) :
  is_Some (describe_properties ps acc)
  <-> Forall (fun kv => is_Some (describeSchema kv.2)) ps.
Proof.
  revert acc. induction ps as [|[k sub] ps IH]; intros acc.
  - split; [constructor|by eexists].
  - cbn [describe_properties]. rewrite Forall_cons. cbn [snd].
    destruct (describeSchema sub) as [d|].
    + rewrite IH. split; [by split|by intros [_ ?]].
    + split; [by intros [? ?]|by intros [[? ?] _]].
Qed.

(** Property X5.  [describeSchema] returns a description, rather than
    raise the [TypeError] of reading [type] of [undefined], exactly when
    every array schema it reaches has [items]: the array schemas among the
    properties of objects, and among the items of arrays whose items are
    objects. *)
Theorem describeSchema_defined (s : JSONSchema) :
  is_Some (describeSchema s) <-> describable s = true.
Proof.
  induction s as [t ps it req IHps IHit] using JSONSchema_nested_ind.
  rewrite describeSchema_unfold. cbn [describable].
  destruct (text_eqb t (str "object")).
  - rewrite fmap_is_Some, describe_properties_Some, forallb_forall.
    rewrite Forall_forall in IHps |- *.
    split; intros H kv Hin.
    + apply IHps; [by apply list_elem_of_In|]. apply H. by apply list_elem_of_In.
    + apply IHps; [done|]. apply H. by apply list_elem_of_In.
  - destruct (text_eqb t (str "array")); [|by split; [|eexists]].
    destruct it as [i|]; [|by split; [intros [? ?]|]].
    destruct (text_eqb (Schema.type i) (str "object")).
    + rewrite fmap_is_Some. by apply IHit.
    + by split; [|eexists].
Qed.

(** A property with a plain name that the object does not have yet is
    created after the others. *)
Lemma has_snoc {V} (o : Obj.object V) (k k' : jsstring) (v : V) :
  Obj.has k (o ++ [(k', v)]) = Obj.has k o || text_eqb k' k.
Proof.
  unfold Obj.has. rewrite existsb_app. simpl. by rewrite orb_false_r.
Qed.

Lemma assign_plain_name {V} (o : Obj.object V) (k : jsstring) (v : V) :
  plain_name k = true -> Obj.has k o = false ->
  Obj.assign k v o = o ++ [(k, v)].
Proof.
  unfold plain_name, Obj.assign, Obj.set. intros Hk ->.
  destruct (Obj.array_index k); [done|].
  by apply negb_true_iff in Hk as ->.
Qed.

Lemma describe_properties_plain (ps : list (jsstring * JSONSchema))
    (ds : list json) (acc : Obj.object json) :
  NoDup (map fst ps) -> forallb plain_name (map fst ps) = true ->
  Forall (fun kv => Obj.has kv.1 acc = false) ps ->
  Forall2 (fun kv d => describeSchema kv.2 = Some d) ps ds ->
  describe_properties ps acc = Some (acc ++ zip (map fst ps) ds).
Proof.
  intros Hnd Hplain Hacc Hds. revert acc Hnd Hplain Hacc.
  induction Hds as [|[k sub] d ps ds Hd Hds IH]; intros acc Hnd Hplain Hacc.
  - by rewrite app_nil_r.
  - cbn [describe_properties map fst snd zip zip_with] in *. rewrite Hd.
    apply NoDup_cons in Hnd as [Hk Hnd].
    apply andb_true_iff in Hplain as [Hpk Hplain].
    apply Forall_cons in Hacc as [Hkacc Hacc]. cbn [fst] in *.
    rewrite (assign_plain_name acc k d Hpk Hkacc), IH; try done.
    + by rewrite <- app_assoc.
    + rewrite Forall_forall in Hacc |- *. intros [k' sub'] Hin.
      rewrite has_snoc, (Hacc _ Hin). cbn [fst orb].
      destruct (text_eqb k k') eqn:E; [|done].
      apply text_eqb_true in E as ->. exfalso. apply Hk.
      apply list_elem_of_fmap. by exists (k', sub').
Qed.

(** Property X6.  The description of an object schema is an object with
    one member for each property of the schema, under the same name and in
    the same order, holding the description of the schema of the property;
    [items] and [required] play no part.  The names are distinct, and none
    is an array index or [__proto__]. *)
Theorem describeSchema_object (ps : list (jsstring * JSONSchema))
    (it : option JSONSchema) (req : list jsstring) (ds : list json) :
  plain_names (map fst ps) = true ->
  Forall2 (fun kv d => describeSchema kv.2 = Some d) ps ds ->
  describeSchema (mkSchema (str "object") ps it req)
  = Some (JObject (zip (map fst ps) ds)).
Proof.
  unfold plain_names. intros [Hnd Hplain]%andb_true_iff Hds.
  apply bool_decide_eq_true in Hnd.
  rewrite describeSchema_unfold, text_eqb_refl.
  rewrite (describe_properties_plain ps ds []); try done.
  apply Forall_forall. by intros.
Qed.

End SchemaFacts.

(** ** More on the methods *)

Module CallFacts.
Import JS JSON Schema Value Template PromptClass MethodFacts.

Section Calls.
Variable compile : Ajv.Compiler.
Variable JSON_parse : JSON.Decoder.

(** Property X9.  [generate] changes no engine, whether it returns or
    throws, and it calls the backend at most once: the log of prompts is
    left as it was, or is extended by one entry, the prompt that
    [resolvePrompt] returns for the engine and the variables given. *)
Theorem generate_frame (w : world) (this : ref)
    (vars : option (Obj.object value)) :
  heap (generate JSON_parse this vars w).2 = heap w
  /\ (calls (generate JSON_parse this vars w).2 = calls w
      \/ exists e g prompt,
           heap w !! this = Some e /\ _generator e = Some g
           /\ resolvePrompt e vars = Return prompt
           /\ calls (generate JSON_parse this vars w).2 = calls w ++ [prompt]).
Proof.
  split; [apply generate_keeps_heap|].
  run. destruct (heap w !! this) as [e|] eqn:Hthis; [|by left].
  destruct (_generator e) as [g|] eqn:Hg; [|by left].
  destruct (resolvePrompt e vars) as [prompt|] eqn:Hr; [|by left].
  right. exists e, g, prompt. split_and!; try done.
  destruct (Generator.execute g prompt) as [raw|]; [|done]. cbn.
  destruct (_schema e), (_validator e); try done.
  destruct (JSON_parse raw) as [data|]; [|done]. cbn.
  by destruct (validate _ data).
Qed.

(** Property X10.  When [generate] returns, the engine has a backend, the
    prompt resolved, and the backend answered.  Decoded data is the answer
    as the decoder reads it, and the validator of the engine accepts it; a
    raw text is the answer itself, and is returned only when the engine has
    no schema or no validator. *)
Theorem generate_sound (w w' : world) (this : ref)
    (vars : option (Obj.object value)) (result : generated) :
  generate JSON_parse this vars w = (Return result, w') ->
  exists e g prompt raw,
    heap w !! this = Some e /\ _generator e = Some g
    /\ resolvePrompt e vars = Return prompt
    /\ Generator.execute g prompt = Return raw
    /\ match result with
       | Data data =>
           JSON_parse raw = Return data
           /\ exists validator,
                _validator e = Some validator
                /\ Ajv.valid (validator data) = true
       | RawText s => s = raw /\ (_schema e = None \/ _validator e = None)
       end.
Proof.
  run. destruct (heap w !! this) as [e|] eqn:Hthis; [|done].
  destruct (_generator e) as [g|] eqn:Hg; [|done].
  destruct (resolvePrompt e vars) as [prompt|] eqn:Hr; [|done].
  destruct (Generator.execute g prompt) as [raw|] eqn:He; [|done]. cbn.
  intros H. exists e, g, prompt, raw. split_and!; try done.
  destruct (_schema e) as [s|], (_validator e) as [validator|] eqn:Hv;
    cbn in H; try (injection H as <- _; split; [done|]; by (left + right)).
  destruct (JSON_parse raw) as [data|] eqn:Hp; [|done]. cbn in H.
  unfold validate in H. rewrite Hv in H.
  destruct (Ajv.valid (validator data)) eqn:Hvalid; [|done].
  cbn in H. injection H as <- _. split; [done|]. by exists validator.
Qed.

(** Property X11.  Without a schema, or without a validator, [generate]
    returns the answer of the backend as it is, neither decoded nor
    validated, after one call of the backend with the resolved prompt. *)
Theorem generate_unvalidated (w : world) (this : ref) (e : PromptClass.t)
    (g : Generator.t) (vars : option (Obj.object value))
    (prompt raw : jsstring) :
  heap w !! this = Some e -> _generator e = Some g ->
  _schema e = None \/ _validator e = None ->
  resolvePrompt e vars = Return prompt ->
  Generator.execute g prompt = Return raw ->
  generate JSON_parse this vars w
  = (Return (RawText raw),
     {| heap := heap w; calls := calls w ++ [prompt] |}).
Proof.
  intros Hthis Hg Hs Hr He. run. rewrite Hthis, Hg, Hr, He. cbn.
  destruct Hs as [-> | ->]; [done|]. by destruct (_schema e).
Qed.

(** Property X12.  An engine that holds a schema refused by the library
    cannot be derived from: [vars] throws the error of the library and
    leaves the world as it was.  The constructor, [fromJSON] and [Prompt]
    given a refused schema do the same: no engine is created. *)
Theorem refused_schema_stops_construction (w : world) (this : ref)
    (e : PromptClass.t) (s : JSONSchema) (err : exn) :
  heap w !! this = Some e -> _schema e = Some s -> compile s = Throw err ->
  (forall v, vars compile this v w = (Throw err, w))
  /\ (forall options g,
        PromptOptions.schema options = Some s ->
        new compile options w = (Throw err, w)
        /\ fromJSON compile options g w = (Throw err, w)
        /\ Prompt compile (Some options) w = (Throw err, w)).
Proof.
  intros Hthis Hs Hc. split.
  - intros v. run. rewrite Hthis. cbn. by rewrite Hs, Hc.
  - intros options g Ho. split_and!; run; cbn; by rewrite Ho, Hc.
Qed.

(** Writing through a reference that holds an object. *)
Lemma alter_is_insert (l : list PromptClass.t) (i : nat) (x : PromptClass.t)
    (f : PromptClass.t -> PromptClass.t) :
  l !! i = Some x -> alter f i l = <[i := f x]> l.
Proof.
  revert i. induction l as [|y l IH]; intros [|i] H; try done.
  - by injection H as ->.
  - cbn. f_equal. by apply IH.
Qed.

(** Property X13.  The setters [defaults], [text] and [using] store what
    they are given, in place: after two calls in a row through a reference
    to an engine, the reference returned is the same, the field holds the
    value of the second call, and nothing of the first is left (the
    defaults are replaced, not merged); the other fields of the engine, the
    other engines and the log of calls are as they were. *)
Theorem last_setter_wins (w : world) (this : ref) (e : PromptClass.t) :
  heap w !! this = Some e ->
  (forall a b,
      (defaults this a ≫= fun p => defaults p b) w
      = (Return this,
         {| heap :=
              <[this := {| _text := _text e; _defaults := b;
                           _schema := _schema e; _vars := _vars e;
                           _generator := _generator e;
                           _validator := _validator e;
                           _format := _format e |}]> (heap w);
            calls := calls w |}))
  /\ (forall a b,
        (text this a ≫= fun p => text p b) w
        = (Return this,
           {| heap :=
                <[this := {| _text := Some b; _defaults := _defaults e;
                             _schema := _schema e; _vars := _vars e;
                             _generator := _generator e;
                             _validator := _validator e;
                             _format := _format e |}]> (heap w);
              calls := calls w |}))
  /\ (forall a b,
        (using_ this a ≫= fun p => using_ p b) w
        = (Return this,
           {| heap :=
                <[this := {| _text := _text e; _defaults := _defaults e;
                             _schema := _schema e; _vars := _vars e;
                             _generator := Some b;
                             _validator := _validator e;
                             _format := _format e |}]> (heap w);
              calls := calls w |})).
Proof.
  intros Hthis.
  split_and!; intros a b; run; rewrite Hthis; cbn [heap calls];
    rewrite list_lookup_alter_eq, Hthis;
    cbn [fmap option_fmap option_map heap calls];
    rewrite list_alter_alter_eq; by rewrite (alter_is_insert _ _ e).
Qed.

(** The object allocated last. *)
Lemma alter_last (l : list PromptClass.t) (x : PromptClass.t)
    (f : PromptClass.t -> PromptClass.t) :
  alter f (length l) (l ++ [x]) = l ++ [f x].
Proof. induction l as [|y l IH]; [done|]. cbn. by rewrite IH. Qed.

Lemma lookup_last (l : list PromptClass.t) (x : PromptClass.t) :
  (l ++ [x]) !! length l = Some x.
Proof. induction l as [|y l IH]; [done|]. exact IH. Qed.

(** Property X14.  For an engine with the format label [json] whose
    schema, if any, compiles: the text of the engine derived with [vars v]
    is what the engine itself resolves to when it is given [v], error for
    error. *)
Theorem vars_toString (w : world) (this : ref) (e : PromptClass.t)
    (v : Obj.object value) :
  heap w !! this = Some e -> _format e = str "json" ->
  schema_compiles compile e = true ->
  ((vars compile this v ≫= fun derived => toString derived) w).1
  = resolvePrompt e (Some v).
Proof.
  intros Hthis Hf Hc. run. rewrite Hthis. cbn.
  destruct (_schema e) as [s0|] eqn:Hs; cbn.
  - destruct (schema_compiles_Some compile e s0 Hc Hs) as [validator Hv].
    rewrite Hv. cbn. rewrite alter_last, lookup_last. cbn.
    unfold resolvePrompt, allVars. cbn. by rewrite Hs, Hf.
  - rewrite alter_last, lookup_last. cbn.
    unfold resolvePrompt, allVars. cbn. by rewrite Hs.
Qed.

(** The constructor falls back to [json] for a missing or empty format
    label, and no method assigns the field. *)
Lemma new_has_format (options : PromptOptions.t) (w : world) :
  has_format w -> has_format (new compile options w).2.
Proof.
  intros Hw. run.
  assert (match PromptOptions.format options with
          | Some (c :: f) => c :: f
          | _ => str "json"
          end <> []) as Hf
    by by destruct (PromptOptions.format options) as [[|c f]|].
  destruct (PromptOptions.schema options) as [s|]; cbn.
  - destruct (compile s); cbn; [|done].
    apply Forall_app. split; [done|]. by constructor.
  - apply Forall_app. split; [done|]. by constructor.
Qed.

Lemma setter_has_format (f : PromptClass.t -> PromptClass.t) (this : ref)
    (w : world) :
  (forall e, _format (f e) = _format e) ->
  has_format w ->
  has_format ((read this ≫= fun _ => write this f ≫= fun _ => mret this) w).2.
Proof.
  intros Hf Hw. run. destruct (heap w !! this); [|done].
  cbn. apply Forall_alter; [done|]. intros e _. by rewrite Hf.
Qed.

Lemma perform_has_format (c : call) (w : world) :
  has_format w -> has_format (perform compile JSON_parse c w).
Proof.
  intros Hw.
  destruct c as [options|this t|this values|this s|this g|this v|this|this
                |this v|data g]; cbn [perform].
  - by apply new_has_format.
  - by apply setter_has_format.
  - by apply setter_has_format.
  - run. destruct (heap w !! this); [|done]. cbn.
    destruct (compile s); cbn.
    + rewrite list_alter_alter_eq. apply Forall_alter; [done|]. by intros.
    + apply Forall_alter; [done|]. by intros.
  - by apply setter_has_format.
  - unfold PromptClass.vars, mbind, M_bind.
    destruct (toJSON this w) as [[options|err] w1] eqn:E1.
    + assert (w1 = w) as ->.
      { revert E1. run. by destruct (heap w !! this); intros [= _ <-]. }
      pose proof (new_has_format options w Hw) as Hnew.
      destruct (new compile options w) as [[r|err] w2]; [|done].
      cbn in Hnew |- *. unfold write. cbn.
      apply Forall_alter; [done|]. by intros.
    + revert E1. run. by destruct (heap w !! this); intros [= _ <-].
  - run. by destruct (heap w !! this).
  - run. by destruct (heap w !! this).
  - unfold has_format. by rewrite generate_keeps_heap.
  - unfold PromptClass.fromJSON, mbind, M_bind.
    pose proof (new_has_format data w Hw) as Hnew.
    destruct (new compile data w) as [[r|err] w2]; [|done].
    by apply setter_has_format.
Qed.

(** Property X8.  After any sequence of calls of the public interface from
    the empty world, returning or throwing, every engine has a format label
    that is not the empty string. *)
Theorem format_never_empty (cs : list call) :
  has_format (perform_all compile JSON_parse cs empty_world).
Proof.
  unfold perform_all.
  assert (has_format empty_world) as Hw by constructor.
  revert Hw. generalize empty_world as w.
  induction cs as [|c cs IH]; intros w Hw; [done|].
  cbn [fold_left]. apply IH. by apply perform_has_format.
Qed.

End Calls.
End CallFacts.

(** ** The OpenAI backend *)

Module BackendFacts.
Import JS JSON OpenAI OpenAIFacts.

Section Backend.
Variable post : Post.
Variable options : GeneratorOptions.t.

(** Property X16.  The backend posts one request to the completions
    address, with the prompt, the model of the options (the default model
    when it is missing or empty), 300 tokens at most, and the key as bearer
    token.  When the body of the answer is an object whose [choices] is an
    array that starts with an object with a string [text], the backend
    returns that text without the white space at its ends; for the empty
    text it throws the invalid-response error.  The other choices and the
    other members of the body are not read. *)
Theorem execute_first_choice (prompt : jsstring)
    (members choice : Obj.object json) (more : list json) (s : jsstring) :
  post url
    {| prompt := prompt;
       model :=
         match GeneratorOptions.model options with
         | Some (c :: m) => c :: m
         | _ => DEFAULT_OPENAI_MODEL
         end;
       max_tokens := 300 |}
    {| Authorization := str "Bearer " ++ GeneratorOptions.apiKey options;
       Content_Type := str "application/json" |}
  = Return (Some (JObject members)) ->
  Obj.get (str "choices") members = Some (JArray (JObject choice :: more)) ->
  Obj.get (str "text") choice = Some (JString s) ->
  Generator.execute (OpenAIGenerator post options) prompt
  = match s with
    | [] => Throw (Error (str "Invalid response from OpenAI API"))
    | _ :: _ => Return (trim s)
    end.
Proof.
  intros Hpost Hchoices Htext.
  unfold OpenAIGenerator, Generator.new. cbn [Generator.execute
    GeneratorOptions.execute GeneratorOptions.model GeneratorOptions.apiKey
    from_option id].
  unfold execute. cbn [from_option id]. rewrite Hpost.
  cbn [choices_of]. rewrite Hchoices. cbn [first_of head text_of].
  rewrite Htext. by destruct s.
Qed.

(** Property X17.  A text that the backend returns is the [text] of the
    first choice of the answer to that request, a string that is not empty,
    without the white space at its ends: it neither starts nor ends with
    white space. *)
Theorem execute_sound (prompt t : jsstring) :
  Generator.execute (OpenAIGenerator post options) prompt = Return t ->
  exists members choices first s,
    post url
      {| prompt := prompt;
         model :=
           match GeneratorOptions.model options with
           | Some (c :: m) => c :: m
           | _ => DEFAULT_OPENAI_MODEL
           end;
         max_tokens := 300 |}
      {| Authorization := str "Bearer " ++ GeneratorOptions.apiKey options;
         Content_Type := str "application/json" |}
    = Return (Some (JObject members))
    /\ Obj.get (str "choices") members = Some choices
    /\ first_of (Some choices) = Some (JObject first)
    /\ Obj.get (str "text") first = Some (JString s)
    /\ s <> [] /\ t = trim s /\ trimmed t = true.
Proof.
  unfold OpenAIGenerator, Generator.new. cbn [Generator.execute
    GeneratorOptions.execute GeneratorOptions.model GeneratorOptions.apiKey
    from_option id].
  unfold execute. cbn [from_option id].
  destruct (post _ _ _) as [[[|b|n|s|l|members]|]|]; try done.
  cbn [choices_of].
  destruct (Obj.get (str "choices") members) as [choices|] eqn:Hc; [|done].
  destruct (first_of (Some choices)) as [[|b|n|s|l|first]|] eqn:Hf; try done.
  cbn [text_of].
  destruct (Obj.get (str "text") first) as [[|b|n|s|l|o]|] eqn:Ht;
    cbn [truthy]; try done.
  - by destruct b.
  - by destruct (_ =? _)%Z.
  - destruct s as [|c s]; [done|]. intros [= <-].
    exists members, choices, first, (c :: s). split_and!; try done.
    destruct (trim_spec (c :: s)) as (? & ? & _ & _ & _ & H). exact H.
Qed.

End Backend.
End BackendFacts.

(** ** Engines and backends together *)

Module ComposeFacts.
Import JS JSON Schema Value Template PromptClass MethodFacts OpenAI CallFacts.

Section Composition.
Variable compile : Ajv.Compiler.
Variable JSON_parse : JSON.Decoder.

(** Property X15.  The three ways to an engine bound to a backend agree:
    [generator.prompt(options)] does what [Prompt(options).using(generator)]
    does, and what [fromJSON(options, generator)] does, result and world
    alike, also when the schema of the options is refused and when the
    options name another backend. *)
Theorem Generator_prompt_is_using (g : Generator.t)
    (options : PromptOptions.t) (w : world) :
  Generator_prompt compile g (Some options) w
  = (Prompt compile (Some options) ≫= fun p => using_ p g) w
  /\ Generator_prompt compile g (Some options) w
     = fromJSON compile options g w
  /\ Generator_prompt compile g None w
     = (Prompt compile None ≫= fun p => using_ p g) w.
Proof.
  assert (forall o,
    new compile
      {| PromptOptions.generator := Some g;
         PromptOptions.text := PromptOptions.text o;
         PromptOptions.schema := PromptOptions.schema o;
         PromptOptions.defaults := PromptOptions.defaults o;
         PromptOptions.format := PromptOptions.format o |} w
    = (new compile o ≫= fun p => using_ p g) w) as H.
  { intros o. run. cbn [PromptOptions.schema].
    destruct (PromptOptions.schema o) as [s|]; cbn [heap calls].
    - destruct (compile s) as [validator|]; cbn [heap calls]; [|done].
      rewrite lookup_last. cbn [heap calls]. by rewrite alter_last.
    - rewrite lookup_last. cbn [heap calls]. by rewrite alter_last. }
  unfold Generator_prompt, PromptClass.Prompt, PromptClass.fromJSON.
  cbn [from_option id]. by rewrite !H.
Qed.

(** Property X18.  When [generate] throws, the error is one of these, in
    the order the code reaches them: the no-generator error; the error of
    [resolvePrompt]; the error of the backend; and, for an engine with a
    schema and a validator, the error of the decoder, or the invalid-data
    error with the errors of the validator, which rejected the data.
    [validate] is reached only with a validator at hand: its error for a
    missing validator is not one of the cases. *)
Theorem generate_failures (w w' : world) (this : ref)
    (vars : option (Obj.object value)) (err : exn) :
  generate JSON_parse this vars w = (Throw err, w') ->
  heap w !! this = None
  \/ exists e, heap w !! this = Some e
     /\ (_generator e = None /\ err = Error no_generator_message
         \/ exists g, _generator e = Some g
            /\ (resolvePrompt e vars = Throw err
                \/ exists prompt, resolvePrompt e vars = Return prompt
                   /\ (Generator.execute g prompt = Throw err
                       \/ exists raw validator,
                            Generator.execute g prompt = Return raw
                            /\ is_Some (_schema e)
                            /\ _validator e = Some validator
                            /\ (JSON_parse raw = Throw err
                                \/ exists data,
                                     JSON_parse raw = Return data
                                     /\ Ajv.valid (validator data) = false
                                     /\ err
                                        = Error (invalid_message
                                                   (Ajv.errors
                                                      (validator data))))))).
Proof.
  run. destruct (heap w !! this) as [e|] eqn:Hthis; [|by left].
  intros H. right. exists e. split; [done|].
  destruct (_generator e) as [g|] eqn:Hg;
    [|left; split; [done|]; by injection H as <- _].
  right. exists g. split; [done|].
  destruct (resolvePrompt e vars) as [prompt|] eqn:Hr;
    [|left; by injection H as <- _].
  right. exists prompt. split; [done|].
  destruct (Generator.execute g prompt) as [raw|] eqn:He;
    [|left; by injection H as <- _].
  cbn in H.
  destruct (_schema e) as [s|] eqn:Hs, (_validator e) as [validator|] eqn:Hv;
    cbn in H; try done.
  right. exists raw, validator. split_and!; try done.
  destruct (JSON_parse raw) as [data|] eqn:Hp;
    [|left; by injection H as <- _].
  cbn in H. right. exists data. split; [done|].
  unfold validate in H. rewrite Hv in H.
  destruct (Ajv.valid (validator data)); [done|].
  split; [done|]. by injection H as <- _.
Qed.

(** Property X19.  An engine without a schema that is bound to the OpenAI
    backend: when the prompt resolves and the answer to the request for it
    has a first choice with a text that is not empty, [generate] returns
    that text without the white space at its ends, and the prompt is
    logged. *)
Theorem generate_with_OpenAI (post : Post) (options : GeneratorOptions.t)
    (w : world) (this : ref) (e : PromptClass.t)
    (vars : option (Obj.object value)) (resolved : jsstring)
    (members choice : Obj.object json) (more : list json)
    (c : ascii) (s : jsstring) :
  heap w !! this = Some e ->
  _generator e = Some (OpenAIGenerator post options) ->
  _schema e = None ->
  resolvePrompt e vars = Return resolved ->
  post url
    {| prompt := resolved;
       model :=
         match GeneratorOptions.model options with
         | Some (c :: m) => c :: m
         | _ => DEFAULT_OPENAI_MODEL
         end;
       max_tokens := 300 |}
    {| Authorization := str "Bearer " ++ GeneratorOptions.apiKey options;
       Content_Type := str "application/json" |}
  = Return (Some (JObject members)) ->
  Obj.get (str "choices") members = Some (JArray (JObject choice :: more)) ->
  Obj.get (str "text") choice = Some (JString (c :: s)) ->
  generate JSON_parse this vars w
  = (Return (RawText (trim (c :: s))),
     {| heap := heap w; calls := calls w ++ [resolved] |}).
Proof.
  intros Hthis Hg Hs Hr Hpost Hchoices Htext. run.
  rewrite Hthis, Hg, Hr.
  unfold OpenAIGenerator, Generator.new. cbn [Generator.execute
    GeneratorOptions.execute GeneratorOptions.model GeneratorOptions.apiKey
    from_option id].
  unfold execute. cbn [from_option id]. rewrite Hpost.
  cbn [choices_of]. rewrite Hchoices. cbn [first_of head text_of].
  rewrite Htext. cbn. by rewrite Hs.
Qed.

End Composition.
End ComposeFacts.

(** ** Instances of the further properties *)

Module MoreInstances.
Import JS JSON Schema Value Template PromptClass Examples OpenAI SchemaShape
  Scenarios.

(** X1 at the engine of the test, with [num] given for the call. *)
Lemma allVars_precedence_witness :
  Obj.get (str "num") (allVars books_engine (Some [(str "num", VNumber 5)]))
  = match
      Obj.get (str "num")
        (default (default [] (_vars books_engine))
           (Some [(str "num", VNumber 5)]))
    with
    | Some v => Some v
    | None => Obj.get (str "num") (_defaults books_engine)
    end.
Proof.
  apply (PromptFacts.allVars_precedence books_engine
           (Some [(str "num", VNumber 5)]) (str "num"));
    apply (bool_decide_unpack _); vm_compute; exact I.
Defined.

(** X2 at the template of the test, with a spare binding whose value is a
    replacement pattern. *)
Lemma substitute_fills_used_holes_witness :
  substitute (spare_binding :: books_bindings) (render books_segments)
  = instantiate (spare_binding :: books_bindings) books_segments.
Proof.
  apply (BindingFacts.substitute_fills_used_holes
           (spare_binding :: books_bindings) books_segments);
    vm_compute; reflexivity.
Defined.

(** X3 at the same template, the spare binding standing between the two
    that are used. *)
Lemma substitute_ignores_unused_binding_witness :
  substitute
    ([(str "num", VNumber 3)]
     ++ (str "extra", VString (str "$& and {{num}}"))
        :: [(str "name", VString (str "George Orwell"))])
    (render books_segments)
  = substitute
      ([(str "num", VNumber 3)]
       ++ [(str "name", VString (str "George Orwell"))])
      (render books_segments).
Proof.
  apply (BindingFacts.substitute_ignores_unused_binding
           [(str "num", VNumber 3)]
           [(str "name", VString (str "George Orwell"))]
           (str "extra") (VString (str "$& and {{num}}")) books_segments);
    vm_compute; reflexivity.
Defined.

(** X4 at two engines with the template of the test: defaults with a spare
    binding on one side, a default overridden by the call on the other. *)
Lemma resolvePrompt_depends_on_used_bindings_witness :
  resolvePrompt (plain_engine books_template (spare_binding :: books_bindings))
    None
  = resolvePrompt (plain_engine books_template [(str "num", VNumber 7)])
      (Some books_bindings).
Proof.
  apply (BindingFacts.resolvePrompt_depends_on_used_bindings
           (plain_engine books_template (spare_binding :: books_bindings))
           (plain_engine books_template [(str "num", VNumber 7)])
           None (Some books_bindings) books_segments);
    vm_compute; reflexivity.
Defined.

(** X6 at an object schema with a nested object. *)
Lemma describeSchema_object_witness :
  describeSchema
    (mkSchema (str "object")
       [(str "title", string_schema); (str "author", book_schema)]
       None [str "title"])
  = Some (JObject
            (zip (map fst [(str "title", string_schema);
                            (str "author", book_schema)])
               [JString (str "string");
                JObject [(str "title", JString (str "string"));
                         (str "year", JString (str "string"))]])).
Proof.
  apply (SchemaFacts.describeSchema_object
           [(str "title", string_schema); (str "author", book_schema)]
           None [str "title"]
           [JString (str "string");
            JObject [(str "title", JString (str "string"));
                     (str "year", JString (str "string"))]]).
  - vm_compute; reflexivity.
  - repeat constructor.
Defined.

(** X7 at a session that constructs, sets a schema, derives and generates. *)
Lemma calls_keep_sync_witness :
  all_in_sync Ajv.compile
    (perform_all Ajv.compile JSON.parse session empty_world).
Proof.
  apply (MethodFacts.calls_keep_sync Ajv.compile JSON.parse session
           empty_world).
  - vm_compute; reflexivity.
  - constructor.
Defined.

(** X10 at an answer that fits the schema. *)
Lemma generate_sound_witness :
  exists e g prompt raw,
    heap (one_engine
            (book_engine (constant_backend orwell_answer) (str "json"))) !! 0
    = Some e
    /\ _generator e = Some g
    /\ resolvePrompt e None = Return prompt
    /\ Generator.execute g prompt = Return raw
    /\ match
         Data (JObject [(str "title", JString (str "1984"));
                        (str "year", JString (str "1949"))])
       with
       | Data data =>
           JSON.parse raw = Return data
           /\ exists validator,
                _validator e = Some validator
                /\ Ajv.valid (validator data) = true
       | RawText s => s = raw /\ (_schema e = None \/ _validator e = None)
       end.
Proof.
  apply (CallFacts.generate_sound JSON.parse
           (one_engine
              (book_engine (constant_backend orwell_answer) (str "json")))
           {| heap :=
                [book_engine (constant_backend orwell_answer) (str "json")];
              calls := [str "Name a book." ++ book_directive "json"] |}
           0 None
           (Data (JObject [(str "title", JString (str "1984"));
                           (str "year", JString (str "1949"))])));
    vm_compute; reflexivity.
Defined.

(** X18 at an answer that the validator rejects. *)
Lemma generate_failures_witness :
  heap (one_engine (book_engine (constant_backend (str "{}")) (str "json")))
    !! 0 = None
  \/ exists e,
       heap (one_engine
               (book_engine (constant_backend (str "{}")) (str "json"))) !! 0
       = Some e
       /\ (_generator e = None
           /\ Error (str "Invalid data: must have required property 'title'")
              = Error no_generator_message
           \/ exists g, _generator e = Some g
              /\ (resolvePrompt e None
                  = Throw (Error (str "Invalid data: must have required property 'title'"))
                  \/ exists prompt, resolvePrompt e None = Return prompt
                     /\ (Generator.execute g prompt
                         = Throw (Error (str "Invalid data: must have required property 'title'"))
                         \/ exists raw validator,
                              Generator.execute g prompt = Return raw
                              /\ is_Some (_schema e)
                              /\ _validator e = Some validator
                              /\ (JSON.parse raw
                                  = Throw (Error (str "Invalid data: must have required property 'title'"))
                                  \/ exists data,
                                       JSON.parse raw = Return data
                                       /\ Ajv.valid (validator data) = false
                                       /\ Error (str "Invalid data: must have required property 'title'")
                                          = Error (invalid_message
                                                     (Ajv.errors
                                                        (validator data))))))).
Proof.
  apply (ComposeFacts.generate_failures JSON.parse
           (one_engine (book_engine (constant_backend (str "{}")) (str "json")))
           {| heap := [book_engine (constant_backend (str "{}")) (str "json")];
              calls := [str "Name a book." ++ book_directive "json"] |}
           0 None
           (Error (str "Invalid data: must have required property 'title'")));
    vm_compute; reflexivity.
Defined.

(** X11 at an engine without a schema. *)
Lemma generate_unvalidated_witness :
  generate JSON.parse 0 None
    (one_engine (greeting_engine (constant_backend (str "Hello, Ada."))))
  = (Return (RawText (str "Hello, Ada.")),
     {| heap :=
          heap (one_engine
                  (greeting_engine (constant_backend (str "Hello, Ada."))));
        calls :=
          calls (one_engine
                   (greeting_engine (constant_backend (str "Hello, Ada."))))
          ++ [str "Greet Ada."] |}).
Proof.
  apply (CallFacts.generate_unvalidated JSON.parse
           (one_engine (greeting_engine (constant_backend (str "Hello, Ada."))))
           0 (greeting_engine (constant_backend (str "Hello, Ada.")))
           (constant_backend (str "Hello, Ada.")) None
           (str "Greet Ada.") (str "Hello, Ada."));
    try (vm_compute; reflexivity).
  left. reflexivity.
Defined.

(** X12 at the engine that a refused [schema] call leaves behind. *)
Lemma refused_schema_stops_construction_witness :
  (forall v,
      vars Ajv.compile 0 v (one_engine refused_engine)
      = (Throw (Error (str "schema is invalid")), one_engine refused_engine))
  /\ (forall options g,
        PromptOptions.schema options = Some twice_required_schema ->
        new Ajv.compile options (one_engine refused_engine)
        = (Throw (Error (str "schema is invalid")), one_engine refused_engine)
        /\ fromJSON Ajv.compile options g (one_engine refused_engine)
           = (Throw (Error (str "schema is invalid")),
              one_engine refused_engine)
        /\ Prompt Ajv.compile (Some options) (one_engine refused_engine)
           = (Throw (Error (str "schema is invalid")),
              one_engine refused_engine)).
Proof.
  apply (CallFacts.refused_schema_stops_construction Ajv.compile
           (one_engine refused_engine) 0 refused_engine twice_required_schema
           (Error (str "schema is invalid")));
    vm_compute; reflexivity.
Defined.

(** X13 at the engine of the test. *)
Lemma last_setter_wins_witness :
  (forall a b,
      (defaults 0 a ≫= fun p => defaults p b) (one_engine books_engine)
      = (Return 0,
         {| heap :=
              <[0 := {| _text := _text books_engine; _defaults := b;
                        _schema := _schema books_engine;
                        _vars := _vars books_engine;
                        _generator := _generator books_engine;
                        _validator := _validator books_engine;
                        _format := _format books_engine |}]>
                (heap (one_engine books_engine));
            calls := calls (one_engine books_engine) |}))
  /\ (forall a b,
        (text 0 a ≫= fun p => text p b) (one_engine books_engine)
        = (Return 0,
           {| heap :=
                <[0 := {| _text := Some b;
                          _defaults := _defaults books_engine;
                          _schema := _schema books_engine;
                          _vars := _vars books_engine;
                          _generator := _generator books_engine;
                          _validator := _validator books_engine;
                          _format := _format books_engine |}]>
                  (heap (one_engine books_engine));
              calls := calls (one_engine books_engine) |}))
  /\ (forall a b,
        (using_ 0 a ≫= fun p => using_ p b) (one_engine books_engine)
        = (Return 0,
           {| heap :=
                <[0 := {| _text := _text books_engine;
                          _defaults := _defaults books_engine;
                          _schema := _schema books_engine;
                          _vars := _vars books_engine;
                          _generator := Some b;
                          _validator := _validator books_engine;
                          _format := _format books_engine |}]>
                  (heap (one_engine books_engine));
              calls := calls (one_engine books_engine) |})).
Proof.
  apply (CallFacts.last_setter_wins (one_engine books_engine) 0 books_engine).
  reflexivity.
Defined.

(** X14 at the engine of the test. *)
Lemma vars_toString_witness :
  ((vars Ajv.compile 0 books_bindings ≫= fun derived => toString derived)
     (one_engine books_engine)).1
  = resolvePrompt books_engine (Some books_bindings).
Proof.
  apply (CallFacts.vars_toString Ajv.compile (one_engine books_engine) 0
           books_engine books_bindings); vm_compute; reflexivity.
Defined.

(** X16 at an answer with two choices and a model. *)
Lemma execute_first_choice_witness :
  Generator.execute
    (OpenAIGenerator (constant_post greeting_response) openai_options)
    (str "Greet Ada.")
  = match str "  Hello, Ada." ++ [newline] with
    | [] => Throw (Error (str "Invalid response from OpenAI API"))
    | _ :: _ => Return (trim (str "  Hello, Ada." ++ [newline]))
    end.
Proof.
  apply (BackendFacts.execute_first_choice (constant_post greeting_response)
           openai_options (str "Greet Ada.")
           [(str "choices",
             JArray [JObject [(str "text",
                               JString (str "  Hello, Ada." ++ [newline]))];
                     JObject [(str "text", JString (str "Bye."))]]);
            (str "model", JString DEFAULT_OPENAI_MODEL)]
           [(str "text", JString (str "  Hello, Ada." ++ [newline]))]
           [JObject [(str "text", JString (str "Bye."))]]
           (str "  Hello, Ada." ++ [newline]));
    vm_compute; reflexivity.
Defined.

(** X17 at the same answer. *)
Lemma execute_sound_witness :
  exists members choices first s,
    constant_post greeting_response url
      {| prompt := str "Greet Ada.";
         model :=
           match GeneratorOptions.model openai_options with
           | Some (c :: m) => c :: m
           | _ => DEFAULT_OPENAI_MODEL
           end;
         max_tokens := 300 |}
      {| Authorization :=
           str "Bearer " ++ GeneratorOptions.apiKey openai_options;
         Content_Type := str "application/json" |}
    = Return (Some (JObject members))
    /\ Obj.get (str "choices") members = Some choices
    /\ first_of (Some choices) = Some (JObject first)
    /\ Obj.get (str "text") first = Some (JString s)
    /\ s <> [] /\ str "Hello, Ada." = trim s
    /\ trimmed (str "Hello, Ada.") = true.
Proof.
  apply (BackendFacts.execute_sound (constant_post greeting_response)
           openai_options (str "Greet Ada.") (str "Hello, Ada."));
    vm_compute; reflexivity.
Defined.

(** X19 at an engine bound to the OpenAI backend over that answer. *)
Lemma generate_with_OpenAI_witness :
  generate JSON.parse 0 None
    (one_engine
       (greeting_engine
          (OpenAIGenerator (constant_post greeting_response) openai_options)))
  = (Return (RawText (trim (" " :: str " Hello, Ada." ++ [newline]))),
     {| heap :=
          heap (one_engine
                  (greeting_engine
                     (OpenAIGenerator (constant_post greeting_response)
                        openai_options)));
        calls :=
          calls (one_engine
                   (greeting_engine
                      (OpenAIGenerator (constant_post greeting_response)
                         openai_options)))
          ++ [str "Greet Ada."] |}).
Proof.
  apply (ComposeFacts.generate_with_OpenAI JSON.parse
           (constant_post greeting_response) openai_options
           (one_engine
              (greeting_engine
                 (OpenAIGenerator (constant_post greeting_response)
                    openai_options)))
           0
           (greeting_engine
              (OpenAIGenerator (constant_post greeting_response)
                 openai_options))
           None (str "Greet Ada.")
           [(str "choices",
             JArray [JObject [(str "text",
                               JString (str "  Hello, Ada." ++ [newline]))];
                     JObject [(str "text", JString (str "Bye."))]]);
            (str "model", JString DEFAULT_OPENAI_MODEL)]
           [(str "text", JString (str "  Hello, Ada." ++ [newline]))]
           [JObject [(str "text", JString (str "Bye."))]]
           " " (str " Hello, Ada." ++ [newline]));
    vm_compute; reflexivity.
Defined.

End MoreInstances.
